(** * LoRaWAN telemetry bridge and device monitor: a shallow embedding

    Two Python programs are modelled here.

    - [MQTTToInfluxBridge.py]: [extract_device_id], [extract_parameters]
      (with its inner [flatten_json] and the type-conversion loop) and
      [on_message].
    - [influxdb_datalog_Alerts.py]: [query_influxdb_for_device],
      [check_and_alert_for_device], [fetch_last_logged_time] and the
      [device_name_map] table.

    Python values are a tagged union, a [dict] is an association list in
    insertion order (iteration order and the overwrite-on-collision
    behaviour of [dict.update] both matter), exceptions are the left
    injection of a sum, and library calls whose text is not part of the
    repository ([json.loads], [bytes.decode], [str] of a list, the
    InfluxDB write and queries, the rendering of a timestamp) are Section
    variables.

    Three things are idealized: a [str] is the sequence of its UTF-8
    bytes (the characters the code looks for are ASCII); the recursion of
    [flatten_json] is total, that is, the nesting of a payload stays within
    the interpreter's recursion limit; and instants are integers, in
    nanoseconds, with [total_seconds()] exact. *)

From Stdlib Require Import ZArith List String Ascii Bool Lia.
From Stdlib Require Import DecimalString SpecFloat.
From Stdlib Require DecimalNat.
Import ListNotations.

Local Open Scope string_scope.
Local Open Scope list_scope.

(** ** Python values *)

(** A [float] is an IEEE-754 binary64 value, kept in the standard
    library's inductive specification of floats. *)
Definition float64 : Type := spec_float.

(** The values [json.loads] can return, which are also the values a flat
    record can hold. *)
#[local] Unset Elimination Schemes.
Inductive pyval : Type :=
| PyNone
| PyBool (b : bool)
| PyInt (n : Z)
| PyFloat (x : float64)
| PyStr (s : string)
| PyList (elems : list pyval)
| PyDict (entries : list (string * pyval)).
#[local] Set Elimination Schemes.

(** A [dict] with string keys, in insertion order. *)
Definition pydict : Type := list (string * pyval).

(** The exceptions the modelled code can raise. *)
Inductive exn : Type :=
| JSONDecodeError
| UnicodeDecodeError
| AttributeError
| OverflowError
| KeyError
| IndexError
| TypeError
| InfluxDBError.

(** A computation that returns a value or raises. *)
Definition result (A : Type) : Type := (exn + A)%type.

Definition ret {A : Type} (a : A) : result A := inr a.
Definition raise {A : Type} (e : exn) : result A := inl e.

Definition bind {A B : Type} (m : result A) (k : A -> result B) : result B :=
  match m with
  | inl e => inl e
  | inr a => k a
  end.

Notation "x <- m ;; k" := (bind m (fun x => k))
  (at level 61, m at next level, right associativity).

(** ** Built-ins *)

(** [isinstance(v, dict)], [isinstance(v, list)]. *)
Definition is_dict (v : pyval) : bool :=
  match v with PyDict _ => true | _ => false end.

Definition is_list (v : pyval) : bool :=
  match v with PyList _ => true | _ => false end.

(** A leaf of the value tree: neither a [dict] nor a [list]. *)
Definition is_scalar (v : pyval) : bool := negb (is_dict v) && negb (is_list v).

(** [s.replace(old, new)] for one-character [old] and [new]. *)
Fixpoint replace (old new : ascii) (s : string) : string :=
  match s with
  | EmptyString => EmptyString
  | String c rest =>
      String (if Ascii.eqb c old then new else c) (replace old new rest)
  end.

(** [.replace('-', '_').replace('.', '_')] *)
Definition sanitize (s : string) : string :=
  replace "." "_" (replace "-" "_" s).

(** Truth value of a [str]: non-empty. *)
Definition str_truthy (s : string) : bool :=
  match s with EmptyString => false | _ => true end.

(** [str(i)] for a non-negative index. *)
Definition str_nat (i : nat) : string :=
  NilEmpty.string_of_uint (Nat.to_uint i).

(** [str(b)] for a [bool]. *)
Definition str_bool (b : bool) : string := if b then "True" else "False".

(** [float(n)] for an [int]: round to nearest, ties to even, into binary64;
    an [int] beyond the range of binary64 raises [OverflowError]. *)
Definition float_of_int (n : Z) : result float64 :=
  match binary_normalize 53 1024 n 0 false with
  | S754_infinity _ => raise OverflowError
  | x => ret x
  end.

(** [d[k] = v]: an existing key keeps its position. *)
Fixpoint dict_setitem (d : pydict) (k : string) (v : pyval) : pydict :=
  match d with
  | [] => [(k, v)]
  | (k', v') :: rest =>
      if String.eqb k' k then (k', v) :: rest
      else (k', v') :: dict_setitem rest k v
  end.

(** [d[k]] *)
Fixpoint dict_getitem (d : pydict) (k : string) : result pyval :=
  match d with
  | [] => raise KeyError
  | (k', v') :: rest => if String.eqb k' k then ret v' else dict_getitem rest k
  end.

(** [d.update(other)] *)
Definition dict_update (d other : pydict) : pydict :=
  fold_left (fun acc kv => dict_setitem acc (fst kv) (snd kv)) other d.

(** The keys of a [dict], as [for key in d] visits them. *)
Definition dict_keys (d : pydict) : list string := map fst d.

(** Truth value of a [dict]: non-empty. *)
Definition dict_truthy (d : pydict) : bool :=
  match d with [] => false | _ => true end.

(** ** MQTTToInfluxBridge.py *)

(** [new_key] of [flatten_json]. *)
Definition new_key_of (parent_key sep k : string) : string :=
  if str_truthy parent_key then sanitize (parent_key ++ sep ++ k)
  else sanitize k.

(** The body of the [for k, v in json_obj.items()] loop of [flatten_json],
    acting on the [items] built so far.  The recursive calls
    [flatten_json(v, new_key, sep)] and
    [flatten_json({f"{k}_{i}": item}, parent_key, sep)] are the inner loops
    [over_items] and the single application under [over_list]; the lemmas
    [flatten_step_dict] and [flatten_step_list] below give them back in the
    shape of the source. *)
Fixpoint flatten_step (parent_key sep k : string) (v : pyval) (items : pydict)
  {struct v} : pydict :=
  let new_key := new_key_of parent_key sep k in
  match v with
  | PyDict entries =>
      dict_update items
        ((fix over_items (es : list (string * pyval)) (acc : pydict) : pydict :=
            match es with
            | [] => acc
            | (k', v') :: es' =>
                over_items es' (flatten_step new_key sep k' v' acc)
            end) entries [])
  | PyList elems =>
      (fix over_list (i : nat) (vs : list pyval) (acc : pydict) : pydict :=
         match vs with
         | [] => acc
         | item :: vs' =>
             over_list (S i) vs'
               (dict_update acc
                  (flatten_step parent_key sep (k ++ "_" ++ str_nat i) item []))
         end) 0%nat elems items
  | _ => dict_setitem items new_key v
  end.

(** [flatten_json(json_obj, parent_key, sep)] on a [dict]. *)
Definition flatten_json (json_obj : pydict) (parent_key sep : string) : pydict :=
  fold_left (fun items kv => flatten_step parent_key sep (fst kv) (snd kv) items)
            json_obj [].

(** [topic.split('/')] *)
Fixpoint str_split (sep : ascii) (s : string) : list string :=
  match s with
  | EmptyString => [EmptyString]
  | String c rest =>
      if Ascii.eqb c sep then EmptyString :: str_split sep rest
      else match str_split sep rest with
           | [] => [String c EmptyString]
           | seg :: segs => String c seg :: segs
           end
  end.

(** [parts[i]] for a non-negative index. *)
Definition list_getitem {A : Type} (parts : list A) (i : nat) : result A :=
  match nth_error parts i with
  | Some x => ret x
  | None => raise IndexError
  end.

Definition extract_device_id (topic : string) : result string :=
  let parts := str_split "/" topic in
  list_getitem parts 4.

(** The type-conversion rule of [extract_parameters] for one value:
    [bool] to [str], [int] to [float], [list] to [str]; [bool] is tested
    before [int], as in the source.  [None] means that no branch applies and
    the entry is left as it is. *)
Definition convert (str_list : list pyval -> string) (v : pyval)
  : result (option pyval) :=
  match v with
  | PyBool b => ret (Some (PyStr (str_bool b)))
  | PyInt n => x <- float_of_int n ;; ret (Some (PyFloat x))
  | PyList elems => ret (Some (PyStr (str_list elems)))
  | _ => ret None
  end.

Section Bridge.

(** [json.loads]: [None] stands for a raised [JSONDecodeError]. *)
Variable json_loads : string -> option pyval.

(** [bytes.decode('utf-8')]: [None] stands for a raised
    [UnicodeDecodeError]. *)
Variable decode_utf8 : list Byte.byte -> option string.

(** [str] of a [list]. *)
Variable str_list : list pyval -> string.

(** The loop [for key in flat_payload: ...] of [extract_parameters]. *)
Fixpoint convert_loop (keys : list string) (flat_payload : pydict)
  : result pydict :=
  match keys with
  | [] => ret flat_payload
  | key :: keys' =>
      v <- dict_getitem flat_payload key ;;
      c <- convert str_list v ;;
      match c with
      | Some v' => convert_loop keys' (dict_setitem flat_payload key v')
      | None => convert_loop keys' flat_payload
      end
  end.

(** The body of the [try] block of [extract_parameters]. *)
Definition extract_parameters_try (payload : string) : result pydict :=
  match json_loads payload with
  | None => raise JSONDecodeError
  | Some payload_json =>
      match payload_json with
      | PyDict entries =>
          let flat_payload := flatten_json entries "" "_" in
          convert_loop (dict_keys flat_payload) flat_payload
      | _ => raise AttributeError
      end
  end.

(** [extract_parameters]: [except Exception] turns every exception of the
    body into the return value [None]. *)
Definition extract_parameters (payload : string) : option pydict :=
  match extract_parameters_try payload with
  | inr flat_payload => Some flat_payload
  | inl _ => None
  end.

(** An MQTT message. *)
Record mqtt_message : Type := {
  payload : list Byte.byte;
  topic : string
}.

(** The storage sink: the points written so far, each one the [fields]
    dictionary handed to [write_to_influxdb]. *)
Definition sink : Type := list pydict.

(** The calls of [write_to_influxdb] to the InfluxDB client
    ([InfluxDBClient], [get_list_database], [create_database],
    [switch_database], [write_points]) for the point handed over: [false]
    stands for an exception raised by one of them, in which case the point
    is not written. *)
Variable store_ok : pydict -> bool.

(** [write_to_influxdb]: the outcome and the sink afterwards.  None of
    the client calls is guarded, so an exception of the client leaves the
    function. *)
Definition write_to_influxdb (data : pydict) (db : sink)
  : result unit * sink :=
  if store_ok data then (ret tt, db ++ [data])
  else (raise InfluxDBError, db).

(** [on_message]: the outcome (normal return or exception) and the sink
    afterwards. *)
Definition on_message (message : mqtt_message) (db : sink)
  : result unit * sink :=
  match decode_utf8 (payload message) with
  | None => (raise UnicodeDecodeError, db)
  | Some text =>
      match extract_device_id (topic message) with
      | inl e => (inl e, db)
      | inr device_id =>
          match extract_parameters text with
          | Some decoded_data =>
              if dict_truthy decoded_data then
                write_to_influxdb
                  (dict_setitem decoded_data "device_id" (PyStr device_id))
                  db
              else (ret tt, db)
          | None => (ret tt, db)
          end
      end
  end.

End Bridge.

(** What one pass through the [try] block of [connect_mqtt] meets: the
    call that raises, if any. *)
Inductive attempt : Type :=
| ConnectRaises
| SubscribeRaises
| LoopStartRaises
| NoneRaises.

(** What [connect_mqtt] does to the outside world. *)
Inductive bridge_effect : Type :=
| MqttConnect
| MqttSubscribe
| MqttLoopStart
| PrintConnected
| PrintFailed
| Sleep (seconds : Z).

(** One pass through the body of [while True] in [connect_mqtt]: whether
    [break] is reached, and the effects. *)
Definition connect_once (a : attempt) : bool * list bridge_effect :=
  match a with
  | ConnectRaises => (false, [MqttConnect; PrintFailed; Sleep 5])
  | SubscribeRaises =>
      (false, [MqttConnect; MqttSubscribe; PrintFailed; Sleep 5])
  | LoopStartRaises =>
      (false, [MqttConnect; MqttSubscribe; MqttLoopStart; PrintFailed; Sleep 5])
  | NoneRaises =>
      (true, [MqttConnect; MqttSubscribe; MqttLoopStart; PrintConnected])
  end.

(** [connect_mqtt], from pass number [i] on, against a broker that decides
    what each pass meets.  [fuel] bounds the number of passes; [None] means
    that the loop is still running when it is used up. *)
Fixpoint connect_mqtt (fuel : nat) (broker : nat -> attempt) (i : nat)
  : option (list bridge_effect) :=
  match fuel with
  | O => None
  | S fuel' =>
      let (connected, fx) := connect_once (broker i) in
      if connected then Some fx
      else
        match connect_mqtt fuel' broker (S i) with
        | Some fx' => Some (fx ++ fx')
        | None => None
        end
  end.

(** ** influxdb_datalog_Alerts.py *)

(** [device_name_map] *)
Definition device_name_map : list (string * string) :=
  [ ("pilotdevice", "ED0");
    ("pilotdevice01", "ED1");
    ("pilotdevice02", "ED2");
    ("pilotdevice03", "ED3");
    ("pilotdevice04", "ED4");
    ("pilotdevice05", "ED5") ].

(** [m.get(k, default)] *)
Fixpoint map_get (m : list (string * string)) (k default : string) : string :=
  match m with
  | [] => default
  | (k', v) :: rest => if String.eqb k' k then v else map_get rest k default
  end.

(** [str(n)] for an [int]. *)
Definition str_int (n : Z) : string := NilEmpty.string_of_int (Z.to_int n).

(** Instants and durations are counted in nanoseconds, the resolution of a
    pandas [Timestamp] and [Timedelta]. *)
Definition nanos_per_second : Z := 1000000000.

(** [timedelta(minutes=m)] *)
Definition timedelta_minutes (m : Z) : Z := m * 60 * nanos_per_second.

(** [int(time_diff.total_seconds())]: truncation towards zero.  The
    intermediate [float] is taken to be exact. *)
Definition total_seconds_int (time_diff : Z) : Z :=
  Z.quot time_diff nanos_per_second.

(** [divmod(a, b)] *)
Definition divmod (a b : Z) : Z * Z := (a / b, a mod b)%Z.

(** A row of the query result: the columns [time] and
    [end_device_ids_device_id]. *)
Record point : Type := {
  time : string;
  end_device_ids_device_id : string
}.

(** What the monitor does to the outside world, in order: posts to the
    Telegram endpoint and records written to the log file. *)
Inductive log_text : Type :=
| Alert_sent (message : string)
| Alert_not_sent
| Query_ids_failed
| Query_device_failed (device_id : string)
| Alert_text (message : string)
| No_data_found (mapped_device_id : string)
| No_unique_ids
| Fetch_failed
| Monitor_started
| Monitor_completed.

Inductive effect : Type :=
| TelegramPost (message : string)
| LogInfo (t : log_text)
| LogWarning (t : log_text)
| LogError (t : log_text).

(** The text of the alert built by [check_and_alert_for_device]. *)
Definition alert_message_of (mapped_device_id last_time_text : string)
  (hours minutes : Z) : string :=
  "ALERT: Device '" ++ mapped_device_id
    ++ "' has not logged data for over 10 minutes! "
    ++ "Last log at: " ++ last_time_text ++ ". It has been "
    ++ str_int hours ++ " hours and " ++ str_int minutes
    ++ " minutes since the last log.".

Section Monitor.

(** [InfluxDBClient(...)] followed by [switch_database]: [false] stands
    for a raised exception. *)
Variable connect_ok : bool.

(** The points of [SELECT DISTINCT(...)], as the values of their
    [distinct] column in the order in which the resulting [set] is
    iterated; [None] stands for a raised exception. *)
Variable query_distinct : option (list string).

(** The points of the last-record query for a device; [None] stands for
    a raised exception. *)
Variable query_last : string -> option (list point).

(** [pd.to_datetime(text).tz_convert('Europe/Berlin')]: the instant, in
    nanoseconds since the epoch; [None] stands for a raised exception
    (text that is not a timestamp, or a timestamp without a zone). *)
Variable to_berlin_time : string -> option Z.

(** [str] of a [Timestamp] in the Berlin zone. *)
Variable str_timestamp : Z -> string.

(** [datetime.now(tz)], as read while the given device is checked. *)
Variable now : string -> Z.

(** Whether [requests.post] with [raise_for_status] goes through for a
    message; [false] stands for a raised [RequestException]. *)
Variable telegram_ok : string -> bool.

Definition send_telegram_alert (message : string) : list effect :=
  if telegram_ok message then
    [TelegramPost message; LogInfo (Alert_sent message)]
  else
    [TelegramPost message; LogError Alert_not_sent].

(** The returned [set] (in iteration order) and the effects. *)
Definition query_unique_device_ids : list string * list effect :=
  match query_distinct with
  | Some device_ids => (device_ids, [])
  | None => ([], [LogError Query_ids_failed])
  end.

(** The returned [DataFrame], as its rows, and the effects. *)
Definition query_influxdb_for_device (device_id : string)
  : list point * list effect :=
  match query_last device_id with
  | Some points => (points, [])
  | None => ([], [LogError (Query_device_failed device_id)])
  end.

(** The outcome and the effects of one check. *)
Definition check_and_alert_for_device (device_id : string)
  : result unit * list effect :=
  let (df, fx) := query_influxdb_for_device device_id in
  match df with
  | row :: _ =>
      match to_berlin_time (time row) with
      | None => (raise TypeError, fx)
      | Some last_time_berlin =>
          let time_diff := (now device_id - last_time_berlin)%Z in
          if (time_diff >? timedelta_minutes 10)%Z then
            let total_seconds := total_seconds_int time_diff in
            let (hours, remainder) := divmod total_seconds 3600 in
            let minutes := ((remainder / 60) mod 60)%Z in
            let mapped_device_id :=
              map_get device_name_map device_id device_id in
            let alert_message :=
              alert_message_of mapped_device_id
                (str_timestamp last_time_berlin) hours minutes in
            (ret tt,
             fx ++ send_telegram_alert alert_message
                ++ [LogWarning (Alert_text alert_message)])
          else (ret tt, fx)
      end
  | [] =>
      let mapped_device_id := map_get device_name_map device_id device_id in
      (ret tt, fx ++ [LogWarning (No_data_found mapped_device_id)])
  end.

(** The loop [for device_id in unique_device_ids] of
    [fetch_last_logged_time]; an exception ends it. *)
Fixpoint check_all (unique_device_ids : list string)
  : result unit * list effect :=
  match unique_device_ids with
  | [] => (ret tt, [])
  | device_id :: rest =>
      match check_and_alert_for_device device_id with
      | (inl e, fx) => (inl e, fx)
      | (inr _, fx) =>
          let (r, fx') := check_all rest in (r, fx ++ fx')
      end
  end.

Definition fetch_failed_effects : list effect :=
  LogError Fetch_failed
    :: send_telegram_alert
         "ALERT: Error occurred while fetching data from InfluxDB.".

Definition fetch_last_logged_time : list effect :=
  if connect_ok then
    let (unique_device_ids, fx) := query_unique_device_ids in
    match unique_device_ids with
    | [] => fx ++ [LogError No_unique_ids]
    | _ =>
        match check_all unique_device_ids with
        | (inr _, fx') => fx ++ fx'
        | (inl _, fx') => fx ++ fx' ++ fetch_failed_effects
        end
    end
  else fetch_failed_effects.

Definition main : list effect :=
  [LogInfo Monitor_started] ++ fetch_last_logged_time
    ++ [LogInfo Monitor_completed].

End Monitor.

(** ** Vocabulary of the statements *)

(** [c in s] for a one-character [c]. *)
Fixpoint contains (c : ascii) (s : string) : bool :=
  match s with
  | EmptyString => false
  | String c' rest => Ascii.eqb c' c || contains c rest
  end.

(** A field name without ['-'] and without ['.']. *)
Definition key_clean (k : string) : bool :=
  negb (contains "-" k) && negb (contains "." k).

(** [sep.join(parts)] for a one-character [sep]. *)
Fixpoint str_join (sep : ascii) (parts : list string) : string :=
  match parts with
  | [] => EmptyString
  | [p] => p
  | p :: rest => p ++ String sep (str_join sep rest)
  end.

(** [enumerate(elems, start)] *)
Fixpoint enumerate_from {A : Type} (start : nat) (elems : list A)
  : list (nat * A) :=
  match elems with
  | [] => []
  | x :: rest => (start, x) :: enumerate_from (S start) rest
  end.

(** The loop [for i, item in enumerate(v)] of [flatten_json] as the source
    writes it, through [flatten_json] on the one-entry dictionary. *)
Definition expand_list (parent_key sep k : string) (start : nat)
  (elems : list pyval) (items : pydict) : pydict :=
  fold_left
    (fun acc ix =>
       dict_update acc
         (flatten_json [((k ++ "_" ++ str_nat (fst ix))%string, snd ix)]
                       parent_key sep))
    (enumerate_from start elems) items.

(** A value a flat record is meant to hold: a [str] or a [float]. *)
Definition is_str_or_float (v : pyval) : bool :=
  match v with PyStr _ | PyFloat _ => true | _ => false end.

(** A value the conversion loop leaves behind: a [str], a [float] or
    [None]. *)
Definition is_converted (v : pyval) : bool :=
  match v with PyStr _ | PyFloat _ | PyNone => true | _ => false end.

(** The conversion of one entry, and of all entries in order. *)
Definition convert_entry (str_list : list pyval -> string)
  (kv : string * pyval) : result (string * pyval) :=
  c <- convert str_list (snd kv) ;;
  ret (fst kv, match c with Some v' => v' | None => snd kv end).

Fixpoint convert_all (str_list : list pyval -> string) (d : pydict)
  : result pydict :=
  match d with
  | [] => ret []
  | kv :: rest =>
      kv' <- convert_entry str_list kv ;;
      rest' <- convert_all str_list rest ;;
      ret (kv' :: rest')
  end.

(** An entry of a flattened dictionary: a clean key and a leaf value. *)
Definition flat_entry (kv : string * pyval) : Prop :=
  key_clean (fst kv) = true /\ is_scalar (snd kv) = true.

(** The messages posted to Telegram among some effects: the Alert Events
    that were dispatched. *)
Fixpoint alerts (fx : list effect) : list string :=
  match fx with
  | [] => []
  | TelegramPost message :: rest => message :: alerts rest
  | _ :: rest => alerts rest
  end.

(** The floats [1.0] and [2.0]. *)
Definition float_1_0 : float64 := S754_finite false 4503599627370496 (-52).
Definition float_2_0 : float64 := S754_finite false 4503599627370496 (-51).

(** A [json.loads] that decodes every text to the given value, and one
    that rejects every text. *)
Definition loads_as (v : pyval) : string -> option pyval := fun _ => Some v.
Definition loads_fail : string -> option pyval := fun _ => None.

(** The length of the longest [str] among the values of a record, and
    the text made of [n] copies of a character. *)
Fixpoint longest_str (d : pydict) : nat :=
  match d with
  | [] => 0
  | (_, PyStr s) :: rest => Nat.max (String.length s) (longest_str rest)
  | _ :: rest => longest_str rest
  end.

Fixpoint str_repeat (c : ascii) (n : nat) : string :=
  match n with
  | O => EmptyString
  | S n' => String c (str_repeat c n')
  end.

(** A store that accepts every point, and one whose calls all raise. *)
Definition store_up : pydict -> bool := fun _ => true.
Definition store_down : pydict -> bool := fun _ => false.

(** A [bytes.decode] that yields the given text. *)
Definition decode_as (text : string) : list Byte.byte -> option string :=
  fun _ => Some text.

(** A [str] for lists that renders every list as the given text. *)
Definition render_as (text : string) : list pyval -> string := fun _ => text.

(** A store that answers every last-record query with one row. *)
Definition one_row_store : string -> option (list point) :=
  fun _ => Some [ {| time := "1970-01-01T00:00:00Z";
                     end_device_ids_device_id := "pilotdevice01" |} ].

(** The number of occurrences of a character in a [str]. *)
Fixpoint count_char (c : ascii) (s : string) : nat :=
  match s with
  | EmptyString => 0
  | String c' rest =>
      (if Ascii.eqb c' c then 1 else 0) + count_char c rest
  end.

(** The seconds slept and the connection attempts among some effects. *)
Fixpoint total_sleep (fx : list bridge_effect) : Z :=
  match fx with
  | [] => 0
  | Sleep seconds :: rest => seconds + total_sleep rest
  | _ :: rest => total_sleep rest
  end.

Fixpoint connect_calls (fx : list bridge_effect) : nat :=
  match fx with
  | [] => 0
  | MqttConnect :: rest => S (connect_calls rest)
  | _ :: rest => connect_calls rest
  end.


(** The text of the alert sent when the scan itself fails. *)
Definition fetch_failed_message : string :=
  "ALERT: Error occurred while fetching data from InfluxDB.".

Section MonitorVocabulary.

Variable query_last : string -> option (list point).
Variable to_berlin_time : string -> option Z.
Variable str_timestamp : Z -> string.
Variable now : string -> Z.

(** The first row of the last-record query of a device, if there is one. *)
Definition first_row (device_id : string) : option point :=
  match query_last device_id with
  | Some (row :: _) => Some row
  | _ => None
  end.

(** A device whose first row carries a time that cannot be read. *)
Definition unreadable (device_id : string) : bool :=
  match first_row device_id with
  | Some row =>
      match to_berlin_time (time row) with Some _ => false | None => true end
  | None => false
  end.

(** The instant of the last record of a device, when it has one. *)
Definition last_seen (device_id : string) : option Z :=
  match first_row device_id with
  | Some row => to_berlin_time (time row)
  | None => None
  end.

(** A device whose last record is more than ten minutes old. *)
Definition stale (device_id : string) : bool :=
  match last_seen device_id with
  | Some last => (now device_id - last >? timedelta_minutes 10)%Z
  | None => false
  end.

(** The alert text for a device, from its last record. *)
Definition alert_for (device_id : string) : string :=
  match last_seen device_id with
  | Some last =>
      let secs := Z.quot (now device_id - last) nanos_per_second in
      alert_message_of (map_get device_name_map device_id device_id)
        (str_timestamp last) (secs / 3600) (((secs mod 3600) / 60) mod 60)
  | None => EmptyString
  end.

End MonitorVocabulary.

(** A store with four devices: one with a record at instant [0], one
    whose record carries a garbled time, one without records, and one
    whose query fails; and a reader of times that rejects the garbled
    one. *)
Definition example_store : string -> option (list point) :=
  fun device_id =>
    if String.eqb device_id "pilotdevice01" then
      Some [ {| time := "1970-01-01T00:00:00Z";
                end_device_ids_device_id := "pilotdevice01" |} ]
    else if String.eqb device_id "pilotdevice02" then
      Some [ {| time := "garbled";
                end_device_ids_device_id := "pilotdevice02" |} ]
    else if String.eqb device_id "pilotdevice03" then Some []
    else None.

Definition example_reader : string -> option Z :=
  fun text => if String.eqb text "garbled" then None else Some 0%Z.

(** ** Induction on Python values *)

Section PyvalInd.

Variable P : pyval -> Prop.
Hypothesis HNone : P PyNone.
Hypothesis HBool : forall b, P (PyBool b).
Hypothesis HInt : forall n, P (PyInt n).
Hypothesis HFloat : forall x, P (PyFloat x).
Hypothesis HStr : forall s, P (PyStr s).
Hypothesis HList : forall elems, Forall P elems -> P (PyList elems).
Hypothesis HDict :
  forall entries, Forall (fun kv => P (snd kv)) entries -> P (PyDict entries).

Fixpoint pyval_ind (v : pyval) : P v :=
  match v with
  | PyNone => HNone
  | PyBool b => HBool b
  | PyInt n => HInt n
  | PyFloat x => HFloat x
  | PyStr s => HStr s
  | PyList elems =>
      HList elems
        ((fix go (l : list pyval) : Forall P l :=
            match l with
            | [] => Forall_nil P
            | x :: l' => Forall_cons x (pyval_ind x) (go l')
            end) elems)
  | PyDict entries =>
      HDict entries
        ((fix go (l : list (string * pyval))
            : Forall (fun kv => P (snd kv)) l :=
            match l with
            | [] => Forall_nil _
            | kv :: l' =>
                Forall_cons kv (pyval_ind (snd kv)) (go l')
            end) entries)
  end.

End PyvalInd.

(** ** The recursion of [flatten_json], in the shape of the source *)

Lemma flatten_json_app (es1 es2 : pydict) (parent_key sep : string) :
  flatten_json (es1 ++ es2) parent_key sep =
  fold_left
    (fun items kv => flatten_step parent_key sep (fst kv) (snd kv) items)
    es2 (flatten_json es1 parent_key sep).
Proof. unfold flatten_json. apply fold_left_app. Qed.

Lemma flatten_json_single (k : string) (v : pyval) (parent_key sep : string) :
  flatten_json [(k, v)] parent_key sep = flatten_step parent_key sep k v [].
Proof. reflexivity. Qed.

(** [isinstance(v, dict)]: [items.update(flatten_json(v, new_key, sep=sep))] *)
Lemma flatten_step_dict (parent_key sep k : string) (entries items : pydict) :
  flatten_step parent_key sep k (PyDict entries) items =
  dict_update items
    (flatten_json entries (new_key_of parent_key sep k) sep).
Proof.
  simpl. f_equal. unfold flatten_json.
  generalize (@nil (string * pyval)) as acc.
  induction entries as [|[k' v'] es IH]; intro acc; simpl.
  - reflexivity.
  - apply IH.
Qed.

(** [isinstance(v, list)]: the loop over [enumerate(v)] *)
Lemma flatten_step_list (parent_key sep k : string) (elems : list pyval)
  (items : pydict) :
  flatten_step parent_key sep k (PyList elems) items =
  expand_list parent_key sep k 0 elems items.
Proof.
  simpl. unfold expand_list.
  generalize 0%nat as i. revert items.
  induction elems as [|item vs IH]; intros items i; simpl.
  - reflexivity.
  - rewrite IH. reflexivity.
Qed.

(** Otherwise: [items[new_key] = v] *)
Lemma flatten_step_scalar (parent_key sep k : string) (v : pyval)
  (items : pydict) :
  is_scalar v = true ->
  flatten_step parent_key sep k v items =
  dict_setitem items (new_key_of parent_key sep k) v.
Proof. destruct v; simpl; intro H; try reflexivity; discriminate H. Qed.

(** ** C1, C2: the two worked examples and the list rule *)

(** C1. In the dictionary loop of [flatten_json], an entry [(k, v)] whose
    value [v] is a list contributes, for each element [item] at position
    [i] and in that order, the update of [items] with
    [flatten_json({k_i: item}, parent_key, sep)]: the one-entry dictionary
    is flattened under the prefix [parent_key] the loop itself runs under,
    not under the combined key.  And a payload that decodes to
    [{"x-y.z": [1, 2]}] is normalized to exactly
    [{"x_y_z_0": 1.0, "x_y_z_1": 2.0}]. *)
Theorem flatten_list_under_parent_prefix
  (json_loads : string -> option pyval) (str_list : list pyval -> string)
  (payload : string) :
  json_loads payload = Some (PyDict [("x-y.z", PyList [PyInt 1; PyInt 2])]) ->
  (forall (es1 es2 : pydict) (k : string) (elems : list pyval)
          (parent_key sep : string),
      flatten_json (es1 ++ (k, PyList elems) :: es2) parent_key sep =
      fold_left
        (fun items kv => flatten_step parent_key sep (fst kv) (snd kv) items)
        es2
        (fold_left
           (fun items ix =>
              dict_update items
                (flatten_json
                   [((k ++ "_" ++ str_nat (fst ix))%string, snd ix)]
                   parent_key sep))
           (enumerate_from 0 elems)
           (flatten_json es1 parent_key sep)))
  /\ extract_parameters json_loads str_list payload =
     Some [("x_y_z_0", PyFloat float_1_0); ("x_y_z_1", PyFloat float_2_0)].
Proof.
  intro Hload. split.
  - intros es1 es2 k elems parent_key sep.
    rewrite flatten_json_app. cbn [fold_left fst snd].
    rewrite flatten_step_list. reflexivity.
  - unfold extract_parameters, extract_parameters_try.
    rewrite Hload. reflexivity.
Qed.

Lemma flatten_list_under_parent_prefix_witness :
  extract_parameters
    (loads_as (PyDict [("x-y.z", PyList [PyInt 1; PyInt 2])]))
    (render_as "[1, 2]") "payload" =
  Some [("x_y_z_0", PyFloat float_1_0); ("x_y_z_1", PyFloat float_2_0)].
Proof.
  apply (flatten_list_under_parent_prefix
           (loads_as (PyDict [("x-y.z", PyList [PyInt 1; PyInt 2])]))
           (render_as "[1, 2]") "payload").
  reflexivity.
Defined.

(** C2. A payload that decodes to [{"a": {"b": 1, "c": true}}] is
    normalized to exactly [{"a_b": 1.0, "a_c": "True"}]: the [int] becomes
    a [float] and the [bool] its [str]. *)
Theorem nested_example_normalized
  (json_loads : string -> option pyval) (str_list : list pyval -> string)
  (payload : string) :
  json_loads payload =
    Some (PyDict [("a", PyDict [("b", PyInt 1); ("c", PyBool true)])]) ->
  extract_parameters json_loads str_list payload =
  Some [("a_b", PyFloat float_1_0); ("a_c", PyStr "True")].
Proof.
  intro Hload. unfold extract_parameters, extract_parameters_try.
  rewrite Hload. reflexivity.
Qed.

Lemma nested_example_normalized_witness :
  extract_parameters
    (loads_as (PyDict [("a", PyDict [("b", PyInt 1); ("c", PyBool true)])]))
    (render_as "") "payload" =
  Some [("a_b", PyFloat float_1_0); ("a_c", PyStr "True")].
Proof.
  apply (nested_example_normalized
           (loads_as
              (PyDict [("a", PyDict [("b", PyInt 1); ("c", PyBool true)])]))
           (render_as "") "payload").
  reflexivity.
Defined.

(** ** C8: the device identifier is the fifth segment of the topic *)

Lemma str_split_no_sep (sep : ascii) (s : string) :
  contains sep s = false -> str_split sep s = [s].
Proof.
  induction s as [|c rest IH]; simpl; intro H.
  - reflexivity.
  - apply orb_false_elim in H. destruct H as [Hc Hrest].
    rewrite Hc, (IH Hrest). reflexivity.
Qed.

Lemma str_split_segment (sep : ascii) (p t : string) :
  contains sep p = false ->
  str_split sep (p ++ String sep t) = p :: str_split sep t.
Proof.
  induction p as [|c rest IH]; simpl; intro H.
  - rewrite Ascii.eqb_refl. reflexivity.
  - apply orb_false_elim in H. destruct H as [Hc Hrest].
    rewrite Hc, (IH Hrest). reflexivity.
Qed.

Lemma str_split_join (sep : ascii) (segs : list string) :
  segs <> [] ->
  Forall (fun s => contains sep s = false) segs ->
  str_split sep (str_join sep segs) = segs.
Proof.
  induction segs as [|p rest IH]; intros Hne Hall.
  - contradiction.
  - inversion Hall as [|? ? Hp Hrest]; subst.
    destruct rest as [|q rest'].
    + simpl. apply str_split_no_sep. exact Hp.
    + change (str_join sep (p :: q :: rest'))
        with (p ++ String sep (str_join sep (q :: rest')))%string.
      rewrite (str_split_segment _ _ _ Hp).
      rewrite IH; [reflexivity | discriminate | exact Hrest].
Qed.

(** Splitting loses nothing: the segments joined by the separator are the
    topic again, and no segment holds the separator. *)
Lemma str_join_split (sep : ascii) (s : string) :
  str_join sep (str_split sep s) = s
  /\ Forall (fun seg => contains sep seg = false) (str_split sep s)
  /\ str_split sep s <> [].
Proof.
  induction s as [|c rest [IHj [IHf IHn]]]; simpl.
  - repeat split; [constructor; [reflexivity | constructor] | discriminate].
  - destruct (Ascii.eqb c sep) eqn:Hc.
    + apply Ascii.eqb_eq in Hc. subst c.
      destruct (str_split sep rest) as [|seg segs] eqn:Hs; [contradiction|].
      repeat split.
      * change (str_join sep ("" :: seg :: segs))
          with (String sep (str_join sep (seg :: segs))).
        rewrite IHj. reflexivity.
      * constructor; [reflexivity | exact IHf].
      * discriminate.
    + destruct (str_split sep rest) as [|seg segs] eqn:Hs; [contradiction|].
      pose proof (Forall_inv IHf) as Hseg.
      pose proof (Forall_inv_tail IHf) as Hsegs. simpl in Hseg.
      repeat split.
      * destruct segs as [|seg' segs'].
        -- simpl in *. rewrite IHj. reflexivity.
        -- change (str_join sep (String c seg :: seg' :: segs'))
             with (String c (seg ++ String sep (str_join sep (seg' :: segs'))))%string.
           change (str_join sep (seg :: seg' :: segs'))
             with (seg ++ String sep (str_join sep (seg' :: segs')))%string in IHj.
           rewrite IHj. reflexivity.
      * constructor; [simpl; rewrite Hc; exact Hseg | exact Hsegs].
      * discriminate.
Qed.

(** C8. For every topic made of at least five segments joined by ['/']
    (no segment holding a ['/'] itself), [extract_device_id] returns the
    segment at index 4, counting from zero; the topic
    ["a/b/c/d/device42/e"] yields ["device42"]. *)
Theorem extract_device_id_fifth_segment (segs : list string) :
  5 <= List.length segs ->
  Forall (fun s => contains "/" s = false) segs ->
  extract_device_id (str_join "/" segs) = ret (nth 4 segs "")
  /\ extract_device_id "a/b/c/d/device42/e" = ret "device42".
Proof.
  intros Hlen Hall. split; [|reflexivity].
  unfold extract_device_id, list_getitem.
  rewrite str_split_join; [| destruct segs; [simpl in Hlen; lia | discriminate] | exact Hall].
  destruct (nth_error segs 4) as [x|] eqn:Hnth.
  - rewrite (nth_error_nth _ _ _ Hnth). reflexivity.
  - apply nth_error_None in Hnth. lia.
Qed.

Lemma extract_device_id_fifth_segment_witness :
  extract_device_id (str_join "/" ["a"; "b"; "c"; "d"; "device42"; "e"])
    = ret (nth 4 ["a"; "b"; "c"; "d"; "device42"; "e"] "")
  /\ extract_device_id "a/b/c/d/device42/e" = ret "device42".
Proof.
  apply (extract_device_id_fifth_segment
           ["a"; "b"; "c"; "d"; "device42"; "e"]).
  - simpl. lia.
  - repeat constructor.
Defined.

(** ** Dictionaries *)

Lemma dict_setitem_Forall (Q : string * pyval -> Prop) (d : pydict)
  (k : string) (v : pyval) :
  Forall Q d -> Q (k, v) -> Forall Q (dict_setitem d k v).
Proof.
  intros Hd Hkv. induction Hd as [|[k' v'] rest Hhd Htl IH]; simpl.
  - constructor; [exact Hkv | constructor].
  - destruct (String.eqb k' k) eqn:E.
    + apply String.eqb_eq in E. subst k'. constructor; assumption.
    + constructor; assumption.
Qed.

Lemma dict_update_Forall (Q : string * pyval -> Prop) (other d : pydict) :
  Forall Q d -> Forall Q other -> Forall Q (dict_update d other).
Proof.
  unfold dict_update. revert d.
  induction other as [|[k v] rest IH]; intros d Hd Ho; simpl.
  - exact Hd.
  - inversion Ho; subst. apply IH; [|assumption].
    apply dict_setitem_Forall; assumption.
Qed.

Lemma dict_setitem_fresh (d : pydict) (k : string) (v : pyval) :
  ~ In k (dict_keys d) -> dict_setitem d k v = d ++ [(k, v)].
Proof.
  induction d as [|[k' v'] rest IH]; simpl; intro Hk.
  - reflexivity.
  - destruct (String.eqb k' k) eqn:E.
    + apply String.eqb_eq in E. exfalso. apply Hk. left. exact E.
    + rewrite IH; [reflexivity | intro H; apply Hk; right; exact H].
Qed.

Lemma dict_setitem_keys_present (d : pydict) (k : string) (v : pyval) :
  In k (dict_keys d) -> dict_keys (dict_setitem d k v) = dict_keys d.
Proof.
  induction d as [|[k' v'] rest IH]; simpl; intro Hk.
  - contradiction.
  - destruct (String.eqb k' k) eqn:E.
    + reflexivity.
    + simpl. f_equal. apply IH. destruct Hk as [Hk|Hk]; [|exact Hk].
      apply String.eqb_neq in E. contradiction.
Qed.

Lemma dict_setitem_NoDup (d : pydict) (k : string) (v : pyval) :
  NoDup (dict_keys d) -> NoDup (dict_keys (dict_setitem d k v)).
Proof.
  intro Hd. destruct (in_dec string_dec k (dict_keys d)) as [Hin|Hout].
  - rewrite dict_setitem_keys_present by exact Hin. exact Hd.
  - rewrite dict_setitem_fresh by exact Hout.
    unfold dict_keys. rewrite map_app. simpl.
    apply NoDup_app; try assumption.
    + constructor; [intros []| constructor].
    + intros x Hx [Hk|[]]. subst x. exact (Hout Hx).
Qed.

Lemma dict_update_NoDup (other d : pydict) :
  NoDup (dict_keys d) -> NoDup (dict_keys (dict_update d other)).
Proof.
  unfold dict_update. revert d.
  induction other as [|[k v] rest IH]; intros d Hd; simpl.
  - exact Hd.
  - apply IH. apply dict_setitem_NoDup. exact Hd.
Qed.

Lemma dict_getitem_middle (pre rest : pydict) (k : string) (v : pyval) :
  ~ In k (dict_keys pre) ->
  dict_getitem (pre ++ (k, v) :: rest) k = ret v.
Proof.
  induction pre as [|[k' v'] pre' IH]; simpl; intro Hk.
  - rewrite String.eqb_refl. reflexivity.
  - destruct (String.eqb k' k) eqn:E.
    + apply String.eqb_eq in E. exfalso. apply Hk. left. exact E.
    + apply IH. intro H. apply Hk. right. exact H.
Qed.

Lemma dict_setitem_middle (pre rest : pydict) (k : string) (v v' : pyval) :
  ~ In k (dict_keys pre) ->
  dict_setitem (pre ++ (k, v) :: rest) k v' = pre ++ (k, v') :: rest.
Proof.
  induction pre as [|[k0 v0] pre' IH]; simpl; intro Hk.
  - rewrite String.eqb_refl. reflexivity.
  - destruct (String.eqb k0 k) eqn:E.
    + apply String.eqb_eq in E. exfalso. apply Hk. left. exact E.
    + rewrite IH; [reflexivity | intro H; apply Hk; right; exact H].
Qed.

(** ** Key sanitization *)

Lemma contains_replace_old (old new : ascii) (s : string) :
  old <> new -> contains old (replace old new s) = false.
Proof.
  intro Hne. induction s as [|c rest IH]; simpl.
  - reflexivity.
  - rewrite IH, orb_false_r. destruct (Ascii.eqb c old) eqn:E.
    + apply Ascii.eqb_neq. intro H. apply Hne. symmetry. exact H.
    + exact E.
Qed.

Lemma contains_replace_other (c old new : ascii) (s : string) :
  c <> new -> contains c s = false -> contains c (replace old new s) = false.
Proof.
  intro Hne. induction s as [|c' rest IH]; simpl; intro H.
  - reflexivity.
  - apply orb_false_elim in H. destruct H as [Hc Hrest].
    rewrite (IH Hrest), orb_false_r. destruct (Ascii.eqb c' old).
    + apply Ascii.eqb_neq. intro H. apply Hne. symmetry. exact H.
    + exact Hc.
Qed.

Lemma replace_absent (old new : ascii) (s : string) :
  contains old s = false -> replace old new s = s.
Proof.
  induction s as [|c rest IH]; simpl; intro H.
  - reflexivity.
  - apply orb_false_elim in H. destruct H as [Hc Hrest].
    rewrite Hc, (IH Hrest). reflexivity.
Qed.

Lemma sanitize_clean (s : string) : key_clean (sanitize s) = true.
Proof.
  unfold key_clean, sanitize.
  rewrite contains_replace_other;
    [| discriminate | apply contains_replace_old; discriminate].
  rewrite contains_replace_old by discriminate. reflexivity.
Qed.

Lemma sanitize_clean_id (s : string) : key_clean s = true -> sanitize s = s.
Proof.
  unfold key_clean, sanitize. intro H.
  apply andb_prop in H. destruct H as [Hd Hp].
  apply negb_true_iff in Hd. apply negb_true_iff in Hp.
  rewrite (replace_absent "-" "_" s Hd). apply replace_absent. exact Hp.
Qed.

Lemma new_key_of_clean (parent_key sep k : string) :
  key_clean (new_key_of parent_key sep k) = true.
Proof.
  unfold new_key_of. destruct (str_truthy parent_key); apply sanitize_clean.
Qed.

(** ** What [flatten_json] returns *)

Lemma fold_flatten_step_flat (parent_key sep : string) (entries : pydict) :
  Forall
    (fun kv =>
       forall parent_key sep k items,
         Forall flat_entry items ->
         Forall flat_entry (flatten_step parent_key sep k (snd kv) items))
    entries ->
  forall items,
    Forall flat_entry items ->
    Forall flat_entry
      (fold_left
         (fun items kv => flatten_step parent_key sep (fst kv) (snd kv) items)
         entries items).
Proof.
  induction 1 as [|kv rest Hkv Hrest IH]; intros items Hitems; simpl.
  - exact Hitems.
  - apply IH. apply Hkv. exact Hitems.
Qed.

Lemma flatten_step_flat (v : pyval) :
  forall parent_key sep k items,
    Forall flat_entry items ->
    Forall flat_entry (flatten_step parent_key sep k v items).
Proof.
  induction v as [| b | n | x | s | elems IH | entries IH] using pyval_ind;
    intros parent_key sep k items Hitems;
    try (rewrite flatten_step_scalar by reflexivity;
         apply dict_setitem_Forall;
         [ exact Hitems
         | split; [apply new_key_of_clean | reflexivity] ]).
  - rewrite flatten_step_list. unfold expand_list.
    generalize 0%nat as i. revert items Hitems.
    induction IH as [|item rest Hitem Hrest IHrest]; intros items Hitems i;
      simpl.
    + exact Hitems.
    + apply IHrest. apply dict_update_Forall; [exact Hitems|].
      apply Hitem. constructor.
  - rewrite flatten_step_dict. apply dict_update_Forall; [exact Hitems|].
    unfold flatten_json. apply fold_flatten_step_flat; [exact IH|constructor].
Qed.

Lemma flatten_json_flat (entries : pydict) (parent_key sep : string) :
  Forall flat_entry (flatten_json entries parent_key sep).
Proof.
  unfold flatten_json. apply fold_flatten_step_flat; [|constructor].
  apply Forall_forall. intros kv _. apply flatten_step_flat.
Qed.

Lemma flatten_step_NoDup (parent_key sep k : string) (v : pyval)
  (items : pydict) :
  NoDup (dict_keys items) ->
  NoDup (dict_keys (flatten_step parent_key sep k v items)).
Proof.
  intro Hitems.
  destruct v as [| b | n | x | s | elems | entries];
    try (rewrite flatten_step_scalar by reflexivity;
         apply dict_setitem_NoDup; exact Hitems).
  - rewrite flatten_step_list. unfold expand_list.
    generalize 0%nat as i. revert items Hitems.
    induction elems as [|item rest IH]; intros items Hitems i; simpl.
    + exact Hitems.
    + apply IH. apply dict_update_NoDup. exact Hitems.
  - rewrite flatten_step_dict. apply dict_update_NoDup. exact Hitems.
Qed.

Lemma flatten_json_NoDup (entries : pydict) (parent_key sep : string) :
  NoDup (dict_keys (flatten_json entries parent_key sep)).
Proof.
  unfold flatten_json.
  assert (H : NoDup (dict_keys [])) by constructor.
  revert H. generalize (@nil (string * pyval)) as items.
  induction entries as [|[k v] rest IH]; intros items Hitems; simpl.
  - exact Hitems.
  - apply IH. apply flatten_step_NoDup. exact Hitems.
Qed.

(** A dictionary that is flat already, with distinct clean keys, is left
    as it is by a flattening at the root. *)
Lemma flatten_json_fixed (sep : string) (y : pydict) :
  Forall flat_entry y ->
  NoDup (dict_keys y) ->
  flatten_json y "" sep = y.
Proof.
  unfold flatten_json. intros Hflat Hnd.
  change y with ([] ++ y) in Hnd.
  change y with ([] ++ y) at 2.
  revert Hnd. generalize (@nil (string * pyval)) as pre.
  induction Hflat as [|[k v] rest [Hk Hv] Hrest IH]; intros pre Hnd.
  - simpl. rewrite app_nil_r. reflexivity.
  - simpl in Hk, Hv. cbn [fold_left fst snd].
    rewrite flatten_step_scalar by exact Hv.
    unfold new_key_of. simpl str_truthy. cbv iota.
    rewrite (sanitize_clean_id k Hk).
    assert (Hfresh : ~ In k (dict_keys pre)).
    { unfold dict_keys in Hnd. rewrite map_app in Hnd. simpl in Hnd.
      apply NoDup_remove_2 in Hnd. intro H. apply Hnd.
      apply in_or_app. left. exact H. }
    rewrite (dict_setitem_fresh pre k v Hfresh).
    rewrite IH.
    + rewrite <- app_assoc. reflexivity.
    + rewrite <- app_assoc. exact Hnd.
Qed.

Lemma flatten_json_idempotent_root (x : pydict) (sep : string) :
  flatten_json (flatten_json x "" sep) "" sep = flatten_json x "" sep.
Proof.
  apply flatten_json_fixed; [apply flatten_json_flat | apply flatten_json_NoDup].
Qed.

(** ** The conversion loop *)

(** On a dictionary, which has distinct keys, the loop over the keys
    converts the entries one by one, in order. *)
Lemma convert_loop_convert_all (str_list : list pyval -> string)
  (d pre : pydict) :
  NoDup (dict_keys (pre ++ d)) ->
  convert_loop str_list (dict_keys d) (pre ++ d) =
  (d' <- convert_all str_list d ;; ret (pre ++ d')).
Proof.
  revert pre. induction d as [|[k v] rest IH]; intros pre Hnd.
  - reflexivity.
  - assert (Hfresh : ~ In k (dict_keys pre)).
    { unfold dict_keys in Hnd. rewrite map_app in Hnd. simpl in Hnd.
      apply NoDup_remove_2 in Hnd. intro H. apply Hnd.
      apply in_or_app. left. exact H. }
    assert (Hkeys : forall w,
               NoDup (dict_keys ((pre ++ [(k, w)]) ++ rest))).
    { intro w. rewrite <- app_assoc. unfold dict_keys in *.
      rewrite map_app in *. exact Hnd. }
    cbn [dict_keys map fst convert_loop].
    rewrite (dict_getitem_middle pre rest k v Hfresh).
    cbn [convert_all]. unfold convert_entry. cbn [fst snd].
    change (map fst rest) with (dict_keys rest).
    unfold bind, ret in *.
    destruct (convert str_list v) as [e|[v'|]] eqn:Hc.
    + reflexivity.
    + rewrite (dict_setitem_middle pre rest k v v' Hfresh).
      change (pre ++ (k, v') :: rest) with (pre ++ [(k, v')] ++ rest).
      rewrite app_assoc, (IH _ (Hkeys v')).
      destruct (convert_all str_list rest) as [e|rest'];
        [reflexivity | rewrite <- app_assoc; reflexivity].
    + change (pre ++ (k, v) :: rest) with (pre ++ [(k, v)] ++ rest).
      rewrite app_assoc, (IH _ (Hkeys v)).
      destruct (convert_all str_list rest) as [e|rest'];
        [reflexivity | rewrite <- app_assoc; reflexivity].
Qed.

(** The normalizer, without the loop over keys. *)
Lemma extract_parameters_try_flatten (json_loads : string -> option pyval)
  (str_list : list pyval -> string) (payload : string) (entries : pydict) :
  json_loads payload = Some (PyDict entries) ->
  extract_parameters_try json_loads str_list payload =
  convert_all str_list (flatten_json entries "" "_").
Proof.
  intro Hload. unfold extract_parameters_try. rewrite Hload.
  pose proof (convert_loop_convert_all str_list
                (flatten_json entries "" "_") []) as H.
  simpl app in H. rewrite H by apply flatten_json_NoDup.
  destruct (convert_all str_list (flatten_json entries "" "_")); reflexivity.
Qed.

Lemma extract_parameters_some (json_loads : string -> option pyval)
  (str_list : list pyval -> string) (payload : string) (flat : pydict) :
  extract_parameters json_loads str_list payload = Some flat ->
  exists entries,
    json_loads payload = Some (PyDict entries)
    /\ convert_all str_list (flatten_json entries "" "_") = ret flat.
Proof.
  unfold extract_parameters. intro H.
  destruct (json_loads payload) as [[| | | | | |entries]|] eqn:Hload;
    try (unfold extract_parameters_try in H; rewrite Hload in H; discriminate).
  exists entries. split; [reflexivity|].
  rewrite (extract_parameters_try_flatten _ _ _ _ Hload) in H.
  destruct (convert_all str_list (flatten_json entries "" "_"));
    [discriminate | injection H as ->; reflexivity].
Qed.

Lemma convert_scalar_converted (str_list : list pyval -> string)
  (v : pyval) (c : option pyval) :
  is_scalar v = true ->
  convert str_list v = ret c ->
  is_converted (match c with Some v' => v' | None => v end) = true.
Proof.
  destruct v as [| b | n | x | s | elems | entries]; simpl; intros Hv Hc;
    try discriminate Hv;
    try (injection Hc as <-; reflexivity).
  unfold bind in Hc. destruct (float_of_int n) as [e|x]; [discriminate|].
  injection Hc as <-. reflexivity.
Qed.

Lemma convert_all_converted (str_list : list pyval -> string)
  (d d' : pydict) :
  Forall flat_entry d ->
  convert_all str_list d = ret d' ->
  Forall (fun kv => key_clean (fst kv) = true
                    /\ is_converted (snd kv) = true) d'
  /\ dict_keys d' = dict_keys d.
Proof.
  intro Hflat. revert d'.
  induction Hflat as [|[k v] rest [Hk Hv] Hrest IH]; intros d' Hd'.
  - injection Hd' as <-. split; [constructor | reflexivity].
  - simpl in Hk, Hv. cbn [convert_all] in Hd'.
    unfold convert_entry, bind, ret in Hd'. cbn [fst snd] in Hd'.
    destruct (convert str_list v) as [e|c] eqn:Hc; [discriminate|].
    destruct (convert_all str_list rest) as [e|rest'] eqn:Hr; [discriminate|].
    injection Hd' as <-.
    destruct (IH rest' eq_refl) as [IHall IHkeys].
    split.
    + constructor; [|exact IHall]. split; [exact Hk|].
      apply (convert_scalar_converted str_list v c Hv Hc).
    + simpl. rewrite IHkeys. reflexivity.
Qed.

(** A leaf never reaches the [list] branch of the conversion, so the
    rendering of lists has no part in the result. *)
Lemma convert_all_render_irrelevant (str_list str_list' : list pyval -> string)
  (d : pydict) :
  Forall flat_entry d ->
  convert_all str_list d = convert_all str_list' d.
Proof.
  induction 1 as [|[k v] rest [Hk Hv] Hrest IH].
  - reflexivity.
  - cbn [convert_all]. rewrite IH. f_equal.
    unfold convert_entry. simpl in Hv. cbn [fst snd].
    destruct v; try reflexivity; discriminate Hv.
Qed.

Lemma convert_all_fixed (str_list : list pyval -> string) (d : pydict) :
  Forall (fun kv => is_converted (snd kv) = true) d ->
  convert_all str_list d = ret d.
Proof.
  induction 1 as [|[k v] rest Hv Hrest IH].
  - reflexivity.
  - cbn [convert_all]. rewrite IH. unfold convert_entry. cbn [fst snd].
    simpl in Hv. destruct v; try discriminate Hv; reflexivity.
Qed.

Lemma is_converted_scalar (v : pyval) :
  is_converted v = true -> is_scalar v = true.
Proof. destruct v; simpl; intro H; try reflexivity; discriminate H. Qed.

(** What a successful normalization returns. *)
Lemma extract_parameters_flat (json_loads : string -> option pyval)
  (str_list : list pyval -> string) (payload : string) (flat : pydict) :
  extract_parameters json_loads str_list payload = Some flat ->
  Forall (fun kv => key_clean (fst kv) = true
                    /\ is_converted (snd kv) = true) flat
  /\ NoDup (dict_keys flat).
Proof.
  intro H. apply extract_parameters_some in H.
  destruct H as [entries [Hload Hconv]].
  destruct (convert_all_converted str_list _ _
              (flatten_json_flat entries "" "_") Hconv) as [Hall Hkeys].
  split; [exact Hall|]. rewrite Hkeys. apply flatten_json_NoDup.
Qed.

(** ** C4: no list is left for the conversion *)

Lemma convert_all_list_entry (str_list : list pyval -> string)
  (d d' : pydict) (k : string) (elems : list pyval) :
  In (k, PyList elems) d ->
  convert_all str_list d = ret d' ->
  In (k, PyStr (str_list elems)) d'.
Proof.
  revert d'. induction d as [|[k0 v0] rest IH]; intros d' Hin Hd'.
  - contradiction.
  - cbn [convert_all] in Hd'.
    unfold convert_entry, bind, ret in Hd'. cbn [fst snd] in Hd'.
    destruct (convert str_list v0) as [e|c] eqn:Hc; [discriminate|].
    destruct (convert_all str_list rest) as [e|rest'] eqn:Hr; [discriminate|].
    injection Hd' as <-.
    destruct Hin as [Heq|Hin].
    + injection Heq as -> ->. simpl in Hc. injection Hc as <-.
      left. reflexivity.
    + right. apply IH; [exact Hin | reflexivity].
Qed.

Lemma extract_parameters_render_irrelevant
  (json_loads : string -> option pyval)
  (str_list str_list' : list pyval -> string) (payload : string) :
  extract_parameters json_loads str_list payload =
  extract_parameters json_loads str_list' payload.
Proof.
  unfold extract_parameters.
  destruct (json_loads payload) as [[| | | | | |entries]|] eqn:Hload;
    try (unfold extract_parameters_try; rewrite Hload; reflexivity).
  rewrite !(extract_parameters_try_flatten _ _ _ _ Hload).
  rewrite (convert_all_render_irrelevant str_list str_list'
             _ (flatten_json_flat entries "" "_")).
  reflexivity.
Qed.

Lemma longest_str_bound (d : pydict) (s : string) :
  In (PyStr s) (map snd d) -> String.length s <= longest_str d.
Proof.
  induction d as [|[k v] rest IH]; simpl; intro Hin.
  - contradiction.
  - destruct Hin as [Heq|Hin].
    + subst v. apply Nat.le_max_l.
    + specialize (IH Hin).
      destruct v; try exact IH.
      etransitivity; [exact IH | apply Nat.le_max_r].
Qed.

Lemma str_repeat_length (c : ascii) (n : nat) :
  String.length (str_repeat c n) = n.
Proof.
  induction n as [|n IH]; simpl; [reflexivity | rewrite IH; reflexivity].
Qed.

(** C4, as amended. A value that is a [list] when the conversion loop
    reaches it is replaced by its [str]; but for no input is any value
    still a [list] (or a [dict]) after flattening, so the rule never
    applies, and what [extract_parameters] returns does not depend on how
    a list is rendered. *)
Theorem list_rule_never_applies
  (json_loads : string -> option pyval)
  (str_list str_list' : list pyval -> string) (payload : string) :
  (forall elems,
      convert str_list (PyList elems) = ret (Some (PyStr (str_list elems))))
  /\ (forall flat_payload k elems flat,
         NoDup (dict_keys flat_payload) ->
         In (k, PyList elems) flat_payload ->
         convert_loop str_list (dict_keys flat_payload) flat_payload
           = ret flat ->
         In (k, PyStr (str_list elems)) flat)
  /\ (forall entries parent_key sep,
         forallb (fun kv => is_scalar (snd kv))
                 (flatten_json entries parent_key sep) = true)
  /\ extract_parameters json_loads str_list payload =
     extract_parameters json_loads str_list' payload.
Proof.
  split; [reflexivity|]. split; [|split].
  - intros flat_payload k elems flat Hnd Hin Hloop.
    pose proof (convert_loop_convert_all str_list flat_payload [] Hnd) as H.
    simpl app in H. rewrite H in Hloop. unfold bind, ret in Hloop.
    destruct (convert_all str_list flat_payload) as [e|d'] eqn:Hall;
      [discriminate|].
    injection Hloop as <-.
    apply (convert_all_list_entry str_list flat_payload d' k elems Hin Hall).
  - intros entries parent_key sep. apply forallb_forall. intros kv Hkv.
    pose proof (flatten_json_flat entries parent_key sep) as Hflat.
    rewrite Forall_forall in Hflat. apply (Hflat kv Hkv).
  - apply extract_parameters_render_irrelevant.
Qed.

Lemma list_rule_never_applies_witness :
  In ("x", PyStr "[1]")
     [("x", PyStr "[1]"); ("y", PyFloat float_2_0)].
Proof.
  destruct (list_rule_never_applies loads_fail (render_as "[1]")
              (render_as "") "payload") as [_ [Hrule _]].
  apply (Hrule [("x", PyList [PyInt 1]); ("y", PyInt 2)] "x" [PyInt 1]).
  - repeat constructor; simpl; intuition discriminate.
  - left. reflexivity.
  - reflexivity.
Defined.

(** C4, as stated, fails for every input.  There is no payload in which a
    value that is still a [list] after flattening ends up replaced by its
    [str] in the record, because no value is a [list] after flattening;
    and there is no mapping and no list of leaves whose [str] is a value
    of the record whatever the rendering of lists is, because the record
    is the same under every rendering. *)
Lemma no_list_is_ever_stringified :
  ~ (exists (json_loads : string -> option pyval)
            (str_list : list pyval -> string) (payload : string)
            (entries : pydict) (k : string) (elems : list pyval)
            (flat : pydict),
        json_loads payload = Some (PyDict entries)
        /\ In (k, PyList elems) (flatten_json entries "" "_")
        /\ extract_parameters json_loads str_list payload = Some flat
        /\ In (k, PyStr (str_list elems)) flat)
  /\ ~ (exists (entries : pydict) (elems : list pyval),
           forallb is_scalar elems = true
           /\ forall str_list : list pyval -> string,
               exists flat,
                 extract_parameters (loads_as (PyDict entries)) str_list
                   "payload" = Some flat
                 /\ In (PyStr (str_list elems)) (map snd flat)).
Proof.
  split.
  - intros [json_loads [str_list [payload [entries [k [elems [flat H]]]]]]].
    destruct H as [_ [Hin _]].
    pose proof (flatten_json_flat entries "" "_") as Hflat.
    rewrite Forall_forall in Hflat.
    destruct (Hflat _ Hin) as [_ Hscalar]. discriminate Hscalar.
  - intros [entries [elems [_ H]]].
    destruct (H (render_as "")) as [flat0 [Hflat0 _]].
    set (fresh := str_repeat "a" (S (longest_str flat0))).
    destruct (H (render_as fresh)) as [flat1 [Hflat1 Hin]].
    rewrite (extract_parameters_render_irrelevant _ (render_as fresh)
               (render_as "")) in Hflat1.
    rewrite Hflat0 in Hflat1. injection Hflat1 as <-.
    apply longest_str_bound in Hin. unfold render_as, fresh in Hin.
    rewrite str_repeat_length in Hin. lia.
Qed.

(** An instance: [{"x": [1, 2]}], a list of two leaves, is normalized to
    [{"x_0": 1.0, "x_1": 2.0}]; the record holds neither the key ["x"] nor
    the text ["[1, 2]"] of the list. *)
Example list_of_leaves_is_expanded :
  extract_parameters
    (loads_as (PyDict [("x", PyList [PyInt 1; PyInt 2])]))
    (render_as "[1, 2]") "payload"
  = Some [("x_0", PyFloat float_1_0); ("x_1", PyFloat float_2_0)]
  /\ extract_parameters
       (loads_as (PyDict [("x", PyList [PyInt 1; PyInt 2])]))
       (render_as "[1, 2]") "payload"
     <> Some [("x", PyStr "[1, 2]")]
  /\ ~ In (PyStr "[1, 2]")
          (map snd [("x_0", PyFloat float_1_0); ("x_1", PyFloat float_2_0)]).
Proof.
  split; [reflexivity|]. split.
  - discriminate.
  - simpl. intros [H|[H|[]]]; discriminate H.
Qed.

(** ** C5: the values and keys of a flat record *)

(** C5, as amended. Every value of a record [extract_parameters] returns
    is a [str], a [float] or [None] (no [bool], [int], [list] or [dict]
    remains), every key is free of ['-'] and ['.'], and the keys are
    distinct. *)
Theorem flat_record_values_and_keys
  (json_loads : string -> option pyval) (str_list : list pyval -> string)
  (payload : string) (flat : pydict) :
  extract_parameters json_loads str_list payload = Some flat ->
  Forall (fun kv => is_converted (snd kv) = true
                    /\ contains "-" (fst kv) = false
                    /\ contains "." (fst kv) = false) flat
  /\ NoDup (dict_keys flat).
Proof.
  intro H. destruct (extract_parameters_flat _ _ _ _ H) as [Hall Hnd].
  split; [|exact Hnd].
  eapply Forall_impl; [|exact Hall].
  intros kv [Hk Hv]. split; [exact Hv|].
  unfold key_clean in Hk. apply andb_prop in Hk. destruct Hk as [Hd Hp].
  split; apply negb_true_iff; assumption.
Qed.

Lemma flat_record_values_and_keys_witness :
  Forall (fun kv => is_converted (snd kv) = true
                    /\ contains "-" (fst kv) = false
                    /\ contains "." (fst kv) = false)
         [("a_b", PyNone); ("c", PyFloat float_1_0)]
  /\ NoDup (dict_keys [("a_b", PyNone); ("c", PyFloat float_1_0)]).
Proof.
  apply (flat_record_values_and_keys
           (loads_as (PyDict [("a.b", PyNone); ("c", PyInt 1)]))
           (render_as "") "payload").
  reflexivity.
Defined.

(** C5, as stated, fails on [{"a": null}]: the normalization succeeds and
    the value [None] remains, which is neither a [str] nor a [float]. *)
Lemma null_value_remains :
  ~ (forall (json_loads : string -> option pyval)
            (str_list : list pyval -> string) (payload : string)
            (flat : pydict),
        extract_parameters json_loads str_list payload = Some flat ->
        Forall (fun kv => is_str_or_float (snd kv) = true
                          /\ key_clean (fst kv) = true) flat).
Proof.
  intro H.
  specialize (H (loads_as (PyDict [("a", PyNone)])) (render_as "") "payload"
                [("a", PyNone)] eq_refl).
  inversion H as [|? ? [Hv _] _]. discriminate Hv.
Qed.

(** ** C9: flattening a flat mapping twice *)

(** C9. For every mapping [x] whose values are all leaves,
    [flatten(flatten(x)) = flatten(x)]; when the keys of [x] are moreover
    distinct and free of ['-'] and ['.'], [flatten(x) = x]; and a payload
    that decodes to a record [extract_parameters] returned for [x] is
    normalized to that same record. *)
Theorem flatten_idempotent_on_flat (x : pydict) :
  forallb (fun kv => is_scalar (snd kv)) x = true ->
  flatten_json (flatten_json x "" "_") "" "_" = flatten_json x "" "_"
  /\ (NoDup (dict_keys x) ->
      forallb key_clean (dict_keys x) = true ->
      flatten_json x "" "_" = x)
  /\ (forall (json_loads : string -> option pyval)
             (str_list : list pyval -> string) (payload payload' : string)
             (flat : pydict),
         json_loads payload = Some (PyDict x) ->
         extract_parameters json_loads str_list payload = Some flat ->
         json_loads payload' = Some (PyDict flat) ->
         extract_parameters json_loads str_list payload' = Some flat).
Proof.
  intro Hx. split; [apply flatten_json_idempotent_root|]. split.
  - intros Hnd Hclean. apply flatten_json_fixed; [|exact Hnd].
    apply Forall_forall. intros kv Hkv. split.
    + rewrite forallb_forall in Hclean. apply Hclean.
      unfold dict_keys. apply in_map. exact Hkv.
    + rewrite forallb_forall in Hx. apply (Hx kv Hkv).
  - intros json_loads str_list payload payload' flat _ Hflat Hload'.
    destruct (extract_parameters_flat _ _ _ _ Hflat) as [Hall Hnd].
    unfold extract_parameters.
    rewrite (extract_parameters_try_flatten _ _ _ _ Hload').
    rewrite flatten_json_fixed; [| |exact Hnd].
    + rewrite convert_all_fixed; [reflexivity|].
      eapply Forall_impl; [|exact Hall]. intros kv [_ Hv]. exact Hv.
    + eapply Forall_impl; [|exact Hall]. intros kv [Hk Hv].
      split; [exact Hk | apply is_converted_scalar; exact Hv].
Qed.

Lemma flatten_idempotent_on_flat_witness :
  flatten_json
    (flatten_json [("a", PyInt 1); ("b-c", PyStr "s"); ("b_c", PyNone)]
       "" "_") "" "_"
  = flatten_json [("a", PyInt 1); ("b-c", PyStr "s"); ("b_c", PyNone)] "" "_".
Proof.
  apply (flatten_idempotent_on_flat
           [("a", PyInt 1); ("b-c", PyStr "s"); ("b_c", PyNone)]).
  reflexivity.
Defined.

(** ** C6, C10: messages that are dropped *)

Lemma on_message_none (json_loads : string -> option pyval)
  (decode_utf8 : list Byte.byte -> option string)
  (str_list : list pyval -> string) (store_ok : pydict -> bool)
  (message : mqtt_message) (db : sink)
  (text : string) :
  decode_utf8 (payload message) = Some text ->
  extract_parameters json_loads str_list text = None ->
  on_message json_loads decode_utf8 str_list store_ok message db =
  (match extract_device_id (topic message) with
   | inl e => inl e
   | inr _ => ret tt
   end, db).
Proof.
  intros Hdec Hnone. unfold on_message. rewrite Hdec, Hnone.
  destruct (extract_device_id (topic message)); reflexivity.
Qed.

Lemma on_message_empty (json_loads : string -> option pyval)
  (decode_utf8 : list Byte.byte -> option string)
  (str_list : list pyval -> string) (store_ok : pydict -> bool)
  (message : mqtt_message) (db : sink)
  (text : string) :
  decode_utf8 (payload message) = Some text ->
  extract_parameters json_loads str_list text = Some [] ->
  on_message json_loads decode_utf8 str_list store_ok message db =
  (match extract_device_id (topic message) with
   | inl e => inl e
   | inr _ => ret tt
   end, db).
Proof.
  intros Hdec Hnone. unfold on_message. rewrite Hdec, Hnone.
  destruct (extract_device_id (topic message)); reflexivity.
Qed.

(** [on_message] writes at most one point, and only a non-empty record
    completed with the device identifier that the store accepts. *)
Lemma on_message_sink (json_loads : string -> option pyval)
  (decode_utf8 : list Byte.byte -> option string)
  (str_list : list pyval -> string) (store_ok : pydict -> bool)
  (message : mqtt_message) (db : sink) :
  snd (on_message json_loads decode_utf8 str_list store_ok message db) = db
  \/ exists text device_id decoded_data,
       decode_utf8 (payload message) = Some text
       /\ extract_device_id (topic message) = ret device_id
       /\ extract_parameters json_loads str_list text = Some decoded_data
       /\ decoded_data <> []
       /\ store_ok (dict_setitem decoded_data "device_id" (PyStr device_id))
          = true
       /\ on_message json_loads decode_utf8 str_list store_ok message db =
          (ret tt,
           db ++ [dict_setitem decoded_data "device_id" (PyStr device_id)]).
Proof.
  unfold on_message, write_to_influxdb.
  destruct (decode_utf8 (payload message)) as [text|] eqn:Hdec;
    [|left; reflexivity].
  destruct (extract_device_id (topic message)) as [e|device_id] eqn:Hid;
    [left; reflexivity|].
  destruct (extract_parameters json_loads str_list text)
    as [[|kv rest]|] eqn:Hex; try (left; reflexivity).
  cbn [dict_truthy].
  destruct (store_ok (dict_setitem (kv :: rest) "device_id" (PyStr device_id)))
    eqn:Hok; [|left; reflexivity].
  right. exists text, device_id, (kv :: rest).
  split; [reflexivity|]. split; [reflexivity|]. split; [exact Hex|].
  split; [discriminate|]. split; [exact Hok | reflexivity].
Qed.

(** A well-formed message is written with its [device_id] field when the
    store accepts it. *)
Example on_message_writes :
  on_message
    (loads_as (PyDict [("a", PyDict [("b", PyInt 1); ("c", PyBool true)])]))
    (decode_as "text") (render_as "") store_up
    {| payload := []; topic := "a/b/c/d/device42/e" |} []
  = (ret tt,
     [[("a_b", PyFloat float_1_0); ("a_c", PyStr "True");
       ("device_id", PyStr "device42")]]).
Proof. reflexivity. Qed.

(** Two keys that sanitize to the same name collide; the later value
    wins and the earlier position is kept. *)
Example flatten_json_collision :
  flatten_json [("a-b", PyInt 1); ("c", PyInt 3); ("a.b", PyInt 2)] "" "_"
  = [("a_b", PyInt 2); ("c", PyInt 3)].
Proof. reflexivity. Qed.

(** An [int] beyond the range of a [float] makes the conversion raise, and
    the normalizer returns [None]. *)
Example extract_parameters_overflow :
  extract_parameters (loads_as (PyDict [("n", PyInt (2 ^ 1024))]))
    (render_as "") "text" = None.
Proof. reflexivity. Qed.

(** C6. Whenever the body of the normalizer raises (the text is not
    JSON, the decoded value is not a mapping, or any other exception
    [e]), [extract_parameters] raises nothing and returns [None], and
    [on_message] leaves the storage sink as it was. *)
Theorem failed_normalization_is_dropped
  (json_loads : string -> option pyval)
  (decode_utf8 : list Byte.byte -> option string)
  (str_list : list pyval -> string) (store_ok : pydict -> bool)
  (message : mqtt_message) (db : sink)
  (text : string) :
  decode_utf8 (payload message) = Some text ->
  (json_loads text = None
   \/ (exists v, json_loads text = Some v /\ is_dict v = false)
   \/ (exists e, extract_parameters_try json_loads str_list text = inl e)) ->
  extract_parameters json_loads str_list text = None
  /\ snd (on_message json_loads decode_utf8 str_list store_ok message db) = db.
Proof.
  intros Hdec Hfail.
  assert (Hnone : extract_parameters json_loads str_list text = None).
  { unfold extract_parameters.
    destruct Hfail as [Hj | [[v [Hj Hv]] | [e He]]].
    - unfold extract_parameters_try. rewrite Hj. reflexivity.
    - unfold extract_parameters_try. rewrite Hj.
      destruct v; try reflexivity; discriminate Hv.
    - rewrite He. reflexivity. }
  split; [exact Hnone|].
  rewrite (on_message_none _ _ _ _ _ _ _ Hdec Hnone). reflexivity.
Qed.

Lemma failed_normalization_is_dropped_witness :
  extract_parameters (loads_as (PyList [PyInt 1])) (render_as "") "[1]" = None
  /\ snd (on_message (loads_as (PyList [PyInt 1])) (decode_as "[1]")
            (render_as "") store_up
            {| payload := []; topic := "a/b/c/d/device42/e" |}
            [[("t", PyFloat float_1_0)]])
     = [[("t", PyFloat float_1_0)]].
Proof.
  apply (failed_normalization_is_dropped
           (loads_as (PyList [PyInt 1])) (decode_as "[1]") (render_as "")
           store_up
           {| payload := []; topic := "a/b/c/d/device42/e" |}
           [[("t", PyFloat float_1_0)]] "[1]").
  - reflexivity.
  - right. left. exists (PyList [PyInt 1]). split; reflexivity.
Defined.

(** C10. An entry whose value is the empty list adds nothing to the
    flattened dictionary: flattening with the entry equals flattening
    without it; [{"x": []}] and [{}] flatten to the empty record.  A
    payload normalized to the empty record is handled by [on_message]
    exactly as one whose normalization failed: nothing is written. *)
Theorem empty_record_is_dropped
  (json_loads : string -> option pyval)
  (decode_utf8 : list Byte.byte -> option string)
  (str_list : list pyval -> string) (store_ok : pydict -> bool)
  (message : mqtt_message) (db : sink)
  (text : string) :
  decode_utf8 (payload message) = Some text ->
  (json_loads text = Some (PyDict [("x", PyList [])])
   \/ json_loads text = Some (PyDict [])
   \/ extract_parameters json_loads str_list text = Some []) ->
  (forall es1 es2 k parent_key sep,
      flatten_json (es1 ++ (k, PyList []) :: es2) parent_key sep =
      flatten_json (es1 ++ es2) parent_key sep)
  /\ extract_parameters json_loads str_list text = Some []
  /\ snd (on_message json_loads decode_utf8 str_list store_ok message db) = db
  /\ on_message json_loads decode_utf8 str_list store_ok message db =
     on_message loads_fail decode_utf8 str_list store_ok message db.
Proof.
  intros Hdec Hcase.
  assert (Hempty : extract_parameters json_loads str_list text = Some []).
  { destruct Hcase as [Hj | [Hj | H]]; [| |exact H];
      unfold extract_parameters, extract_parameters_try; rewrite Hj;
      reflexivity. }
  split; [|split; [exact Hempty|]].
  - intros es1 es2 k parent_key sep.
    rewrite !flatten_json_app. reflexivity.
  - rewrite (on_message_empty _ _ _ _ _ _ _ Hdec Hempty).
    rewrite (on_message_none loads_fail _ _ _ _ _ _ Hdec eq_refl).
    split; reflexivity.
Qed.

Lemma empty_record_is_dropped_witness :
  extract_parameters (loads_as (PyDict [("x", PyList [])])) (render_as "")
    "text" = Some []
  /\ snd (on_message (loads_as (PyDict [("x", PyList [])])) (decode_as "text")
            (render_as "") store_up
            {| payload := []; topic := "a/b/c/d/device42/e" |} [])
     = [].
Proof.
  destruct (empty_record_is_dropped
              (loads_as (PyDict [("x", PyList [])])) (decode_as "text")
              (render_as "") store_up
              {| payload := []; topic := "a/b/c/d/device42/e" |} [] "text"
              eq_refl (or_introl eq_refl)) as [_ [H1 [H2 _]]].
  split; [exact H1 | exact H2].
Defined.

(** ** The monitor *)

Lemma alerts_app (fx fx' : list effect) :
  alerts (fx ++ fx') = alerts fx ++ alerts fx'.
Proof.
  induction fx as [|f rest IH]; simpl.
  - reflexivity.
  - destruct f; simpl; rewrite IH; reflexivity.
Qed.

Lemma alerts_send_telegram_alert (telegram_ok : string -> bool)
  (message : string) :
  alerts (send_telegram_alert telegram_ok message) = [message].
Proof.
  unfold send_telegram_alert. destruct (telegram_ok message); reflexivity.
Qed.

Lemma str_append_assoc (a b c : string) :
  ((a ++ b) ++ c = a ++ (b ++ c))%string.
Proof.
  induction a as [|x rest IH]; simpl; [reflexivity | rewrite IH; reflexivity].
Qed.

Section MonitorFacts.

Variable query_last : string -> option (list point).
Variable to_berlin_time : string -> option Z.
Variable str_timestamp : Z -> string.
Variable now : string -> Z.
Variable telegram_ok : string -> bool.

Local Abbreviation check :=
  (check_and_alert_for_device
     query_last to_berlin_time str_timestamp now telegram_ok).
Local Abbreviation scan :=
  (check_all query_last to_berlin_time str_timestamp now telegram_ok).

Lemma check_present (device_id : string) (row : point) (rows : list point)
  (last : Z) :
  query_last device_id = Some (row :: rows) ->
  to_berlin_time (time row) = Some last ->
  check device_id =
  if (now device_id - last >? timedelta_minutes 10)%Z then
    let total_seconds := total_seconds_int (now device_id - last) in
    let alert_message :=
      alert_message_of (map_get device_name_map device_id device_id)
        (str_timestamp last) (total_seconds / 3600)
        (((total_seconds mod 3600) / 60) mod 60) in
    (ret tt,
     send_telegram_alert telegram_ok alert_message
       ++ [LogWarning (Alert_text alert_message)])
  else (ret tt, []).
Proof.
  intros Hq Ht. unfold check_and_alert_for_device,
    query_influxdb_for_device.
  rewrite Hq, Ht. reflexivity.
Qed.

Lemma check_absent (device_id : string) :
  query_last device_id = Some [] \/ query_last device_id = None ->
  check device_id =
  (ret tt,
   match query_last device_id with
   | Some _ => []
   | None => [LogError (Query_device_failed device_id)]
   end
   ++ [LogWarning
         (No_data_found (map_get device_name_map device_id device_id))]).
Proof.
  intros [Hq|Hq]; unfold check_and_alert_for_device,
    query_influxdb_for_device; rewrite Hq; reflexivity.
Qed.

Lemma check_all_app (before rest : list string) :
  scan (before ++ rest) =
  match scan before with
  | (inl e, fx) => (inl e, fx)
  | (inr _, fx) => (fst (scan rest), fx ++ snd (scan rest))
  end.
Proof.
  induction before as [|d before' IH]; simpl.
  - destruct (check_all _ _ _ _ _ rest); reflexivity.
  - destruct (check_and_alert_for_device _ _ _ _ _ d) as [[e|u] fx].
    + reflexivity.
    + rewrite IH.
      destruct (check_all _ _ _ _ _ before') as [[e'|u'] fx'].
      * reflexivity.
      * simpl. rewrite app_assoc. reflexivity.
Qed.

(** C3. For a device whose last-record query returns a row with a
    readable time [last], let [elapsed] be [now - last].  The check ends
    normally; it dispatches an alert if and only if [elapsed] is strictly
    more than 10 minutes; the alert is the one text built from the
    device's label, the time of the last record, the hours
    [secs // 3600] and the minutes [((secs % 3600) // 60) % 60], where
    [secs] is [elapsed] in whole seconds, truncated (so the minutes lie
    in [0, 60) and hours and minutes together are [secs] rounded down to
    the minute).  With [elapsed] 15 minutes the alert ends in
    ["0 hours and 15 minutes since the last log."]; with [elapsed]
    5 minutes there is no alert and no effect at all. *)
Theorem staleness_threshold (device_id : string) (row : point)
  (rows : list point) (last : Z) :
  query_last device_id = Some (row :: rows) ->
  to_berlin_time (time row) = Some last ->
  let elapsed := (now device_id - last)%Z in
  let secs := Z.quot elapsed nanos_per_second in
  let hours := (secs / 3600)%Z in
  let minutes := (((secs mod 3600) / 60) mod 60)%Z in
  fst (check device_id) = ret tt
  /\ (alerts (snd (check device_id)) <> []
      <-> (timedelta_minutes 10 < elapsed)%Z)
  /\ ((timedelta_minutes 10 < elapsed)%Z ->
      alerts (snd (check device_id)) =
        [alert_message_of (map_get device_name_map device_id device_id)
           (str_timestamp last) hours minutes]
      /\ (0 <= minutes < 60)%Z
      /\ (hours * 3600 + minutes * 60 <= secs
          < hours * 3600 + minutes * 60 + 60)%Z)
  /\ ((elapsed <= timedelta_minutes 10)%Z -> snd (check device_id) = [])
  /\ (elapsed = timedelta_minutes 15 ->
      exists head,
        alerts (snd (check device_id)) =
          [(head ++ "0 hours and 15 minutes since the last log.")%string])
  /\ (elapsed = timedelta_minutes 5 -> snd (check device_id) = []).
Proof.
  intros Hq Ht elapsed secs hours minutes.
  rewrite (check_present device_id row rows last Hq Ht).
  fold elapsed. unfold total_seconds_int. fold secs. cbv zeta.
  fold hours. fold minutes.
  assert (Hfired :
            (timedelta_minutes 10 < elapsed)%Z ->
            (elapsed >? timedelta_minutes 10)%Z = true).
  { intro H. apply Z.gtb_lt. exact H. }
  assert (Hquiet :
            (elapsed <= timedelta_minutes 10)%Z ->
            (elapsed >? timedelta_minutes 10)%Z = false).
  { intro H. destruct (elapsed >? timedelta_minutes 10)%Z eqn:E;
      [apply Z.gtb_lt in E; lia | reflexivity]. }
  split; [destruct (elapsed >? timedelta_minutes 10)%Z; reflexivity|].
  split; [|split; [|split; [|split]]].
  - destruct (Z_lt_le_dec (timedelta_minutes 10) elapsed) as [Hlt|Hle].
    + rewrite (Hfired Hlt). cbn [snd].
      rewrite alerts_app, alerts_send_telegram_alert.
      split; [intros _; exact Hlt | intros _; discriminate].
    + rewrite (Hquiet Hle). cbn [snd alerts].
      split; [intro H; contradiction | intro H; lia].
  - intro Hlt. rewrite (Hfired Hlt). cbn [snd].
    rewrite alerts_app, alerts_send_telegram_alert.
    split; [reflexivity|].
    assert (Hm : minutes = ((secs mod 3600) / 60)%Z).
    { unfold minutes. apply Z.mod_small.
      pose proof (Z.mod_pos_bound secs 3600 ltac:(lia)).
      split; [apply Z.div_pos; lia | apply Z.div_lt_upper_bound; lia]. }
    pose proof (Z.mod_pos_bound secs 3600 ltac:(lia)) as Hr.
    pose proof (Z.div_mod secs 3600 ltac:(lia)) as Hd.
    pose proof (Z.div_mod (secs mod 3600) 60 ltac:(lia)) as Hd'.
    pose proof (Z.mod_pos_bound (secs mod 3600) 60 ltac:(lia)) as Hr'.
    fold hours in Hd. rewrite <- Hm in Hd'.
    split; [unfold minutes; apply Z.mod_pos_bound; lia | lia].
  - intro Hle. rewrite (Hquiet Hle). reflexivity.
  - intro H15.
    assert (Hlt : (timedelta_minutes 10 < elapsed)%Z)
      by (rewrite H15; reflexivity).
    rewrite (Hfired Hlt). cbn [snd].
    rewrite alerts_app, alerts_send_telegram_alert.
    assert (Hh : hours = 0%Z)
      by (unfold hours, secs; rewrite H15; reflexivity).
    assert (Hmin : minutes = 15%Z)
      by (unfold minutes, secs; rewrite H15; reflexivity).
    rewrite Hh, Hmin.
    exists ("ALERT: Device '"
              ++ map_get device_name_map device_id device_id
              ++ "' has not logged data for over 10 minutes! "
              ++ "Last log at: " ++ str_timestamp last
              ++ ". It has been ")%string.
    unfold alert_message_of. cbn [alerts app].
    rewrite !str_append_assoc. reflexivity.
  - intro H5. rewrite Hquiet; [reflexivity|].
    rewrite H5. unfold timedelta_minutes, nanos_per_second. lia.
Qed.

(** C7. For a device whose last-record query returns no row or fails,
    the check ends normally, dispatches no alert and only logs: the
    warning that no data was found, after the error of the failed query
    if it failed.  The scan then goes on with the remaining devices:
    its outcome is theirs, and its effects are those of the devices
    before, of this check, and of the remaining devices, in order. *)
Theorem absent_last_seen_is_skipped (device_id : string)
  (before rest : list string) :
  query_last device_id = Some [] \/ query_last device_id = None ->
  fst (scan before) = ret tt ->
  fst (check device_id) = ret tt
  /\ alerts (snd (check device_id)) = []
  /\ snd (check device_id) =
     match query_last device_id with
     | Some _ => []
     | None => [LogError (Query_device_failed device_id)]
     end
     ++ [LogWarning
           (No_data_found (map_get device_name_map device_id device_id))]
  /\ scan (device_id :: rest) =
     (fst (scan rest), snd (check device_id) ++ snd (scan rest))
  /\ scan (before ++ device_id :: rest) =
     (fst (scan rest),
      snd (scan before) ++ snd (check device_id) ++ snd (scan rest)).
Proof.
  intros Hq Hbefore.
  pose proof (check_absent device_id Hq) as Hc.
  assert (Hcons : scan (device_id :: rest) =
                  (fst (scan rest), snd (check device_id) ++ snd (scan rest))).
  { cbn [check_all]. rewrite Hc.
    cbn [snd ret]. destruct (scan rest); reflexivity. }
  split; [rewrite Hc; reflexivity|].
  split; [rewrite Hc; destruct Hq as [Hq|Hq]; rewrite Hq; reflexivity|].
  split; [rewrite Hc; reflexivity|].
  split; [exact Hcons|].
  rewrite check_all_app.
  destruct (scan before) as [[e|u] fx]; [discriminate Hbefore|].
  rewrite Hcons. reflexivity.
Qed.

End MonitorFacts.

Lemma staleness_threshold_witness :
  alerts
    (snd (check_and_alert_for_device one_row_store (fun _ => Some 0%Z)
            (fun _ => "1970-01-01 01:00:00+01:00")
            (fun _ => timedelta_minutes 15) (fun _ => true) "pilotdevice01"))
  = [alert_message_of "ED1" "1970-01-01 01:00:00+01:00" 0 15].
Proof.
  destruct (staleness_threshold one_row_store (fun _ => Some 0%Z)
              (fun _ => "1970-01-01 01:00:00+01:00")
              (fun _ => timedelta_minutes 15) (fun _ => true)
              "pilotdevice01"
              {| time := "1970-01-01T00:00:00Z";
                 end_device_ids_device_id := "pilotdevice01" |}
              [] 0%Z eq_refl eq_refl) as [_ [_ [H _]]].
  destruct (H eq_refl) as [Halert _]. exact Halert.
Defined.

Lemma absent_last_seen_is_skipped_witness :
  alerts
    (snd (check_and_alert_for_device (fun _ => None) (fun _ => Some 0%Z)
            (fun _ => "") (fun _ => 0%Z) (fun _ => true) "pilotdevice02"))
  = []
  /\ check_all (fun _ => None) (fun _ => Some 0%Z) (fun _ => "")
       (fun _ => 0%Z) (fun _ => true) ["pilotdevice02"; "pilotdevice03"]
     = (ret tt,
        [LogError (Query_device_failed "pilotdevice02");
         LogWarning (No_data_found "ED2");
         LogError (Query_device_failed "pilotdevice03");
         LogWarning (No_data_found "ED3")]).
Proof.
  destruct (absent_last_seen_is_skipped (fun _ => None) (fun _ => Some 0%Z)
              (fun _ => "") (fun _ => 0%Z) (fun _ => true)
              "pilotdevice02" [] ["pilotdevice03"]
              (or_intror eq_refl) eq_refl) as [_ [Ha [_ [Hs _]]]].
  split; [exact Ha | exact Hs].
Defined.

(** ** More on key sanitization *)

Lemma replace_length (old new : ascii) (s : string) :
  String.length (replace old new s) = String.length s.
Proof.
  induction s as [|c rest IH]; simpl; [reflexivity | rewrite IH; reflexivity].
Qed.

Lemma replace_app (old new : ascii) (a b : string) :
  replace old new (a ++ b) = (replace old new a ++ replace old new b)%string.
Proof.
  induction a as [|c rest IH]; simpl; [reflexivity | rewrite IH; reflexivity].
Qed.

Lemma replace_get (old new : ascii) (s : string) (i : nat) :
  String.get i (replace old new s) =
  match String.get i s with
  | Some c => Some (if Ascii.eqb c old then new else c)
  | None => None
  end.
Proof.
  revert i. induction s as [|c rest IH]; intro i; simpl.
  - reflexivity.
  - destruct i as [|i']; [reflexivity | apply IH].
Qed.

Lemma sanitize_app (a b : string) :
  sanitize (a ++ b) = (sanitize a ++ sanitize b)%string.
Proof. unfold sanitize. rewrite !replace_app. reflexivity. Qed.

Lemma sanitize_length (s : string) :
  String.length (sanitize s) = String.length s.
Proof. unfold sanitize. rewrite !replace_length. reflexivity. Qed.

Lemma sanitize_truthy (s : string) :
  str_truthy (sanitize s) = str_truthy s.
Proof. destruct s; reflexivity. Qed.

(** X1. Sanitizing a name replaces each ['-'] and each ['.'] by ['_'] and
    touches no other character: position by position the result is the
    input with these two characters mapped to ['_'].  The result has the
    length of the input and holds neither character; sanitizing twice is
    sanitizing once; and the names left unchanged are exactly those
    without ['-'] and ['.']. *)
Theorem sanitize_spec (s : string) :
  (forall i,
      String.get i (sanitize s) =
      match String.get i s with
      | Some c =>
          Some (if Ascii.eqb c "-" || Ascii.eqb c "." then "_"%char else c)
      | None => None
      end)
  /\ String.length (sanitize s) = String.length s
  /\ key_clean (sanitize s) = true
  /\ sanitize (sanitize s) = sanitize s
  /\ (sanitize s = s <-> key_clean s = true).
Proof.
  split; [|split; [|split; [|split]]].
  - intro i. unfold sanitize. rewrite !replace_get.
    destruct (String.get i s) as [c|]; [|reflexivity].
    destruct (Ascii.eqb c "-") eqn:Hd; [reflexivity|].
    destruct (Ascii.eqb c "."); reflexivity.
  - apply sanitize_length.
  - apply sanitize_clean.
  - apply sanitize_clean_id. apply sanitize_clean.
  - split.
    + intro H. rewrite <- H. apply sanitize_clean.
    + apply sanitize_clean_id.
Qed.

(** ** Decimal indices *)

Lemma string_of_uint_clean (d : Decimal.uint) :
  contains "-" (NilEmpty.string_of_uint d) = false
  /\ contains "." (NilEmpty.string_of_uint d) = false.
Proof. induction d; simpl; try (split; reflexivity); exact IHd. Qed.

Lemma str_nat_clean (i : nat) : sanitize (str_nat i) = str_nat i.
Proof.
  apply sanitize_clean_id. unfold key_clean, str_nat.
  destruct (string_of_uint_clean (Nat.to_uint i)) as [Hd Hp].
  rewrite Hd, Hp. reflexivity.
Qed.

Lemma str_nat_inj (i j : nat) : str_nat i = str_nat j -> i = j.
Proof.
  unfold str_nat. intro H.
  assert (Hu : Nat.to_uint i = Nat.to_uint j).
  { apply (f_equal NilEmpty.uint_of_string) in H.
    rewrite !NilEmpty.usu in H. injection H as H. exact H. }
  rewrite <- (DecimalNat.Unsigned.of_to i), <- (DecimalNat.Unsigned.of_to j).
  rewrite Hu. reflexivity.
Qed.

Lemma str_append_inj (a b c : string) :
  (a ++ b = a ++ c)%string -> b = c.
Proof.
  induction a as [|x rest IH]; simpl; intro H.
  - exact H.
  - injection H as H. apply IH. exact H.
Qed.

(** The name of element [i] of a list is the name of the list followed by
    ["_"] and [i]. *)
Lemma new_key_of_index (parent_key sep k : string) (i : nat) :
  new_key_of parent_key sep (k ++ "_" ++ str_nat i) =
  (new_key_of parent_key sep k ++ "_" ++ str_nat i)%string.
Proof.
  unfold new_key_of. destruct (str_truthy parent_key).
  - rewrite !sanitize_app, str_nat_clean.
    change (sanitize "_") with "_".
    rewrite <- !str_append_assoc. reflexivity.
  - rewrite !sanitize_app, str_nat_clean. reflexivity.
Qed.

(** ** Lists of leaves *)

Lemma fold_setitem_indexed (K : string) (elems : list pyval) :
  forall (start : nat) (acc : pydict),
    (forall k', In k' (dict_keys acc) ->
                exists j, j < start /\ k' = (K ++ str_nat j)%string) ->
    fold_left
      (fun acc ix => dict_setitem acc (K ++ str_nat (fst ix))%string (snd ix))
      (enumerate_from start elems) acc =
    acc ++ map (fun ix => ((K ++ str_nat (fst ix))%string, snd ix))
               (enumerate_from start elems).
Proof.
  induction elems as [|e rest IH]; intros start acc Hacc; simpl.
  - rewrite app_nil_r. reflexivity.
  - assert (Hfresh : ~ In (K ++ str_nat start)%string (dict_keys acc)).
    { intro Hin. destruct (Hacc _ Hin) as [j [Hj Heq]].
      apply str_append_inj in Heq. apply str_nat_inj in Heq. lia. }
    rewrite (dict_setitem_fresh acc _ e Hfresh).
    rewrite IH.
    + rewrite <- app_assoc. reflexivity.
    + intros k' Hin. unfold dict_keys in Hin. rewrite map_app in Hin.
      apply in_app_or in Hin. destruct Hin as [Hin|[Hin|[]]].
      * destruct (Hacc _ Hin) as [j [Hj Heq]]. exists j. split; [lia|exact Heq].
      * exists start. split; [lia | symmetry; exact Hin].
Qed.

Lemma expand_list_leaves (parent_key sep k : string) (elems : list pyval) :
  forallb is_scalar elems = true ->
  forall start items,
    expand_list parent_key sep k start elems items =
    fold_left
      (fun acc ix =>
         dict_setitem acc
           ((new_key_of parent_key sep k ++ "_") ++ str_nat (fst ix))%string
           (snd ix))
      (enumerate_from start elems) items.
Proof.
  unfold expand_list.
  induction elems as [|e rest IH]; intros Hall start items.
  - reflexivity.
  - simpl in Hall. apply andb_prop in Hall. destruct Hall as [He Hrest].
    cbn [enumerate_from fold_left fst snd].
    rewrite flatten_json_single, flatten_step_scalar by exact He.
    rewrite new_key_of_index, <- str_append_assoc.
    apply (IH Hrest).
Qed.

Lemma enumerate_from_length {A : Type} (elems : list A) (start : nat) :
  List.length (enumerate_from start elems) = List.length elems.
Proof.
  revert start. induction elems as [|e rest IH]; intro start; simpl.
  - reflexivity.
  - rewrite IH. reflexivity.
Qed.

(** X2. A list of [n] leaves under the key [k] is flattened to exactly [n]
    fields, in the order of the list: element [i] is stored, unchanged,
    under the name of the list followed by ["_"] and [i]. *)
Theorem list_of_leaves_fields (parent_key sep k : string)
  (elems : list pyval) :
  forallb is_scalar elems = true ->
  flatten_json [(k, PyList elems)] parent_key sep =
    map (fun ix =>
           ((new_key_of parent_key sep k ++ "_" ++ str_nat (fst ix))%string,
            snd ix))
        (enumerate_from 0 elems)
  /\ List.length (flatten_json [(k, PyList elems)] parent_key sep)
     = List.length elems.
Proof.
  intro Hall.
  assert (Heq : flatten_json [(k, PyList elems)] parent_key sep =
                map (fun ix =>
                       ((new_key_of parent_key sep k ++ "_"
                           ++ str_nat (fst ix))%string, snd ix))
                    (enumerate_from 0 elems)).
  { rewrite flatten_json_single, flatten_step_list.
    rewrite (expand_list_leaves _ _ _ _ Hall).
    rewrite fold_setitem_indexed by (intros k' []).
    simpl app. apply map_ext. intros [i e]. simpl.
    rewrite str_append_assoc. reflexivity. }
  split; [exact Heq|].
  rewrite Heq, length_map. apply enumerate_from_length.
Qed.

Lemma list_of_leaves_fields_witness :
  flatten_json [("gw.rssi", PyList [PyInt (-97); PyStr "n/a"; PyNone])]
    "uplink" "_"
  = [("uplink_gw_rssi_0", PyInt (-97)); ("uplink_gw_rssi_1", PyStr "n/a");
     ("uplink_gw_rssi_2", PyNone)].
Proof.
  apply (list_of_leaves_fields "uplink" "_" "gw.rssi"
           [PyInt (-97); PyStr "n/a"; PyNone]).
  reflexivity.
Defined.

(** ** Nested names carry the path of their parent *)

Lemma str_truthy_app (a b : string) :
  str_truthy a = true -> str_truthy (a ++ b) = true.
Proof. destruct a; simpl; [discriminate | reflexivity]. Qed.

Lemma new_key_of_nested (parent_key sep k : string) :
  str_truthy parent_key = true ->
  new_key_of parent_key sep k = (sanitize (parent_key ++ sep) ++ sanitize k)%string
  /\ str_truthy (new_key_of parent_key sep k) = true.
Proof.
  intro Hp. unfold new_key_of. rewrite Hp. split.
  - rewrite !sanitize_app, str_append_assoc. reflexivity.
  - rewrite sanitize_truthy. apply str_truthy_app. exact Hp.
Qed.

Lemma flatten_step_prefix (v : pyval) :
  forall parent_key sep k items,
    str_truthy parent_key = true ->
    Forall (fun kv => exists rest,
                fst kv = (sanitize (parent_key ++ sep) ++ rest)%string) items ->
    Forall (fun kv => exists rest,
                fst kv = (sanitize (parent_key ++ sep) ++ rest)%string)
           (flatten_step parent_key sep k v items).
Proof.
  induction v as [| b | n | x | s | elems IH | entries IH] using pyval_ind;
    intros parent_key sep k items Hp Hitems;
    try (rewrite flatten_step_scalar by reflexivity;
         apply dict_setitem_Forall; [exact Hitems|];
         exists (sanitize k); simpl;
         apply (new_key_of_nested parent_key sep k Hp)).
  - rewrite flatten_step_list. unfold expand_list.
    generalize 0%nat as i. revert items Hitems.
    induction IH as [|item rest Hitem Hrest IHrest]; intros items Hitems i.
    + exact Hitems.
    + cbn [enumerate_from fold_left fst snd]. apply IHrest.
      apply dict_update_Forall; [exact Hitems|].
      rewrite flatten_json_single. apply Hitem; [exact Hp | constructor].
  - rewrite flatten_step_dict. apply dict_update_Forall; [exact Hitems|].
    destruct (new_key_of_nested parent_key sep k Hp) as [Hkey Htruthy].
    set (np := new_key_of parent_key sep k) in *.
    assert (Hinner :
              Forall (fun kv => exists rest,
                          fst kv = (sanitize (np ++ sep) ++ rest)%string)
                     (flatten_json entries np sep)).
    { unfold flatten_json.
      assert (Hnil : Forall (fun kv : string * pyval => exists rest,
                          fst kv = (sanitize (np ++ sep) ++ rest)%string) [])
        by constructor.
      revert Hnil. generalize (@nil (string * pyval)) as acc.
      induction IH as [|kv rest Hkv Hrest IHrest]; intros acc Hacc.
      - exact Hacc.
      - cbn [fold_left]. apply IHrest. apply Hkv; [exact Htruthy|exact Hacc]. }
    eapply Forall_impl; [|exact Hinner].
    intros kv [rest Hrest]. rewrite Hrest.
    rewrite sanitize_app.
    assert (Hnp : sanitize np = np).
    { rewrite Hkey, sanitize_app.
      rewrite (sanitize_clean_id _ (sanitize_clean (parent_key ++ sep))).
      rewrite (sanitize_clean_id _ (sanitize_clean k)). reflexivity. }
    rewrite Hnp, Hkey.
    exists (sanitize k ++ sanitize sep ++ rest)%string.
    rewrite !str_append_assoc. reflexivity.
Qed.

(** X3. Below a non-empty prefix, every name [flatten_json] produces
    starts with the sanitized prefix and separator, however deep the
    mappings and lists below are nested.  In particular every field of a
    mapping stored under a non-empty root key [k] is named
    [sanitize k], ["_"], and more. *)
Theorem nested_keys_carry_prefix (entries : pydict)
  (parent_key sep : string) :
  str_truthy parent_key = true ->
  Forall (fun kv => exists rest,
              fst kv = (sanitize (parent_key ++ sep) ++ rest)%string)
         (flatten_json entries parent_key sep)
  /\ Forall (fun kv => exists rest,
                 fst kv = (sanitize parent_key ++ "_" ++ rest)%string)
            (flatten_json [(parent_key, PyDict entries)] "" "_").
Proof.
  intro Hp.
  assert (Hgen : forall p s,
             str_truthy p = true ->
             Forall (fun kv => exists rest,
                         fst kv = (sanitize (p ++ s) ++ rest)%string)
                    (flatten_json entries p s)).
  { intros p s Hps. unfold flatten_json.
    assert (Hnil : Forall (fun kv : string * pyval => exists rest,
                        fst kv = (sanitize (p ++ s) ++ rest)%string) [])
      by constructor.
    revert Hnil. generalize (@nil (string * pyval)) as acc.
    induction entries as [|[k v] rest IH]; intros acc Hacc.
    - exact Hacc.
    - cbn [fold_left fst snd]. apply IH.
      apply flatten_step_prefix; [exact Hps | exact Hacc]. }
  split; [apply Hgen; exact Hp|].
  rewrite flatten_json_single, flatten_step_dict.
  apply dict_update_Forall; [constructor|].
  change (new_key_of "" "_" parent_key) with (sanitize parent_key).
  assert (Hs : str_truthy (sanitize parent_key) = true)
    by (rewrite sanitize_truthy; exact Hp).
  eapply Forall_impl; [|apply (Hgen (sanitize parent_key) "_" Hs)].
  intros kv [rest Hrest]. exists rest. rewrite Hrest.
  rewrite sanitize_app.
  rewrite (sanitize_clean_id _ (sanitize_clean parent_key)).
  rewrite str_append_assoc. reflexivity.
Qed.

Lemma nested_keys_carry_prefix_witness :
  Forall (fun kv => exists rest, fst kv = (sanitize "up-link" ++ "_" ++ rest)%string)
         (flatten_json
            [("up-link", PyDict [("f.port", PyInt 1);
                                 ("rx", PyList [PyDict [("snr", PyNone)]])])]
            "" "_").
Proof.
  apply (nested_keys_carry_prefix
           [("f.port", PyInt 1); ("rx", PyList [PyDict [("snr", PyNone)]])]
           "up-link" "_").
  reflexivity.
Defined.

(** ** What the conversion does to a flattened payload *)

Lemma convert_all_pointwise (str_list : list pyval -> string)
  (d d' : pydict) :
  Forall flat_entry d ->
  convert_all str_list d = ret d' ->
  Forall2
    (fun kv kv' =>
       fst kv' = fst kv
       /\ snd kv' =
          match snd kv with
          | PyBool b => PyStr (str_bool b)
          | PyInt n =>
              match float_of_int n with
              | inr x => PyFloat x
              | inl _ => PyInt n
              end
          | v => v
          end) d d'.
Proof.
  intro Hflat. revert d'.
  induction Hflat as [|[k v] rest [Hk Hv] Hrest IH]; intros d' Hd'.
  - injection Hd' as <-. constructor.
  - cbn [convert_all] in Hd'.
    unfold convert_entry, bind, ret in Hd'. cbn [fst snd] in Hd'.
    destruct (convert str_list v) as [e|c] eqn:Hc; [discriminate|].
    destruct (convert_all str_list rest) as [e|rest'] eqn:Hr; [discriminate|].
    injection Hd' as <-.
    constructor; [|apply IH; reflexivity].
    split; [reflexivity|]. cbn [fst snd]. simpl in Hv.
    destruct v as [| b | n | x | s | elems | entries]; simpl in Hc;
      try discriminate Hv;
      try (injection Hc as <-; reflexivity).
    unfold bind, ret in Hc.
    destruct (float_of_int n) as [e|x]; [discriminate|].
    injection Hc as <-. reflexivity.
Qed.

(** X4. When a payload that decodes to a mapping is normalized, the
    conversion neither adds, drops, renames nor reorders a field of the
    flattened payload, and it changes each value on its own: a [bool]
    becomes ["True"] or ["False"], an [int] becomes its [float], and every
    other leaf (a [float], a [str], [None]) is kept.  A flattened payload
    without [bool] and [int] leaves is returned as it is. *)
Theorem conversion_keeps_fields
  (json_loads : string -> option pyval) (str_list : list pyval -> string)
  (payload : string) (entries flat : pydict) :
  json_loads payload = Some (PyDict entries) ->
  extract_parameters json_loads str_list payload = Some flat ->
  dict_keys flat = dict_keys (flatten_json entries "" "_")
  /\ Forall2
       (fun kv kv' =>
          fst kv' = fst kv
          /\ snd kv' =
             match snd kv with
             | PyBool b => PyStr (str_bool b)
             | PyInt n =>
                 match float_of_int n with
                 | inr x => PyFloat x
                 | inl _ => PyInt n
                 end
             | v => v
             end) (flatten_json entries "" "_") flat
  /\ (forallb (fun kv => is_converted (snd kv))
              (flatten_json entries "" "_") = true ->
      flat = flatten_json entries "" "_").
Proof.
  intros Hload Hflat.
  destruct (extract_parameters_some _ _ _ _ Hflat) as [entries' [Hload' Hconv]].
  rewrite Hload in Hload'. injection Hload' as <-.
  pose proof (flatten_json_flat entries "" "_") as Hfe.
  split; [apply (convert_all_converted str_list _ _ Hfe Hconv)|].
  split; [apply (convert_all_pointwise str_list _ _ Hfe Hconv)|].
  intro Hall. rewrite convert_all_fixed in Hconv.
  - injection Hconv as <-. reflexivity.
  - apply Forall_forall. rewrite forallb_forall in Hall. exact Hall.
Qed.

Lemma conversion_keeps_fields_witness :
  dict_keys [("ok", PyStr "True"); ("n", PyFloat float_2_0); ("s", PyStr "x")]
  = dict_keys (flatten_json
                 [("ok", PyBool true); ("n", PyInt 2); ("s", PyStr "x")]
                 "" "_").
Proof.
  apply (conversion_keeps_fields
           (loads_as (PyDict [("ok", PyBool true); ("n", PyInt 2);
                              ("s", PyStr "x")]))
           (render_as "") "payload"
           [("ok", PyBool true); ("n", PyInt 2); ("s", PyStr "x")]
           [("ok", PyStr "True"); ("n", PyFloat float_2_0); ("s", PyStr "x")]
           eq_refl eq_refl).
Defined.




(** ** The point written by [on_message] *)

Lemma dict_getitem_setitem_same (d : pydict) (k : string) (v : pyval) :
  dict_getitem (dict_setitem d k v) k = ret v.
Proof.
  induction d as [|[k' v'] rest IH]; simpl.
  - rewrite String.eqb_refl. reflexivity.
  - destruct (String.eqb k' k) eqn:E; simpl; rewrite E; [reflexivity|exact IH].
Qed.

Lemma dict_getitem_setitem_other (d : pydict) (k k' : string) (v : pyval) :
  k' <> k ->
  dict_getitem (dict_setitem d k v) k' = dict_getitem d k'.
Proof.
  intro Hne. induction d as [|[k0 v0] rest IH]; simpl.
  - destruct (String.eqb k k') eqn:E; [|reflexivity].
    apply String.eqb_eq in E. congruence.
  - destruct (String.eqb k0 k) eqn:E; simpl.
    + apply String.eqb_eq in E. subst k0.
      destruct (String.eqb k k') eqn:E'; [|reflexivity].
      apply String.eqb_eq in E'. congruence.
    + rewrite IH. reflexivity.
Qed.

Lemma dict_setitem_length (d : pydict) (k : string) (v : pyval) :
  List.length (dict_setitem d k v) =
  if in_dec string_dec k (dict_keys d) then List.length d
  else S (List.length d).
Proof.
  destruct (in_dec string_dec k (dict_keys d)) as [Hin|Hout].
  - rewrite <- (length_map fst (dict_setitem d k v)).
    change (map fst (dict_setitem d k v)) with (dict_keys (dict_setitem d k v)).
    rewrite dict_setitem_keys_present by exact Hin.
    apply length_map.
  - rewrite dict_setitem_fresh by exact Hout.
    rewrite length_app. simpl. lia.
Qed.

(** X6. When [on_message] gets a decodable message with a long enough
    topic and a non-empty record, it hands exactly one point to
    [write_to_influxdb].  If the InfluxDB calls go through for that point,
    [on_message] returns normally and the sink gains exactly that point;
    if one of them raises, the exception leaves [on_message] and the sink
    is as it was.  In that point [device_id] is the identifier taken from
    the topic, also when the payload had a [device_id] field of its own,
    which is overwritten; every other field is as the normalizer returned
    it; and no field is lost. *)
Theorem on_message_point
  (json_loads : string -> option pyval)
  (decode_utf8 : list Byte.byte -> option string)
  (str_list : list pyval -> string) (store_ok : pydict -> bool)
  (message : mqtt_message) (db : sink)
  (text device_id : string) (decoded_data : pydict) :
  decode_utf8 (payload message) = Some text ->
  extract_device_id (topic message) = ret device_id ->
  extract_parameters json_loads str_list text = Some decoded_data ->
  decoded_data <> [] ->
  exists written,
    on_message json_loads decode_utf8 str_list store_ok message db
      = (if store_ok written then (ret tt, db ++ [written])
         else (raise InfluxDBError, db))
    /\ dict_getitem written "device_id" = ret (PyStr device_id)
    /\ (forall k, k <> "device_id" ->
                  dict_getitem written k = dict_getitem decoded_data k)
    /\ List.length written =
       (if in_dec string_dec "device_id" (dict_keys decoded_data)
        then List.length decoded_data
        else S (List.length decoded_data)).
Proof.
  intros Hdec Hid Hex Hne.
  exists (dict_setitem decoded_data "device_id" (PyStr device_id)).
  split; [|split; [|split]].
  - unfold on_message, write_to_influxdb. rewrite Hdec, Hid, Hex.
    destruct decoded_data; [contradiction | reflexivity].
  - apply dict_getitem_setitem_same.
  - intros k Hk. apply dict_getitem_setitem_other. exact Hk.
  - apply dict_setitem_length.
Qed.

Lemma on_message_point_witness :
  exists written,
    on_message
      (loads_as (PyDict [("device_id", PyStr "spoofed"); ("t", PyInt 2)]))
      (decode_as "text") (render_as "") store_down
      {| payload := []; topic := "v3/app/devices/x/pilotdevice01/up" |}
      [[("t", PyFloat float_1_0)]]
      = (if store_down written
         then (ret tt, [[("t", PyFloat float_1_0)]] ++ [written])
         else (raise InfluxDBError, [[("t", PyFloat float_1_0)]]))
    /\ dict_getitem written "device_id" = ret (PyStr "pilotdevice01")
    /\ (forall k, k <> "device_id" ->
                  dict_getitem written k =
                  dict_getitem [("device_id", PyStr "spoofed");
                                ("t", PyFloat float_2_0)] k)
    /\ List.length written = 2.
Proof.
  apply (on_message_point
           (loads_as (PyDict [("device_id", PyStr "spoofed"); ("t", PyInt 2)]))
           (decode_as "text") (render_as "") store_down
           {| payload := []; topic := "v3/app/devices/x/pilotdevice01/up" |}
           [[("t", PyFloat float_1_0)]] "text" "pilotdevice01"
           [("device_id", PyStr "spoofed"); ("t", PyFloat float_2_0)]).
  - reflexivity.
  - reflexivity.
  - reflexivity.
  - discriminate.
Defined.

(** ** Topics that are too short *)

Lemma str_split_length (sep : ascii) (s : string) :
  List.length (str_split sep s) = S (count_char sep s).
Proof.
  induction s as [|c rest IH]; simpl.
  - reflexivity.
  - destruct (Ascii.eqb c sep); simpl.
    + rewrite IH. reflexivity.
    + destruct (str_split sep rest) as [|seg segs]; simpl in *;
        [discriminate IH | exact IH].
Qed.

Lemma extract_device_id_short (topic : string) :
  count_char "/" topic < 4 -> extract_device_id topic = raise IndexError.
Proof.
  intro Hshort. unfold extract_device_id, list_getitem.
  pose proof (str_split_length "/" topic) as Hlen.
  destruct (nth_error (str_split "/" topic) 4) as [seg|] eqn:Hnth;
    [|reflexivity].
  assert (Hlt : 4 < List.length (str_split "/" topic))
    by (apply nth_error_Some; rewrite Hnth; discriminate).
  lia.
Qed.

(** X7. [extract_device_id] raises [IndexError] exactly on the topics with
    fewer than four ['/']; on every other topic it returns the fifth
    segment, which holds no ['/']. *)
Theorem extract_device_id_needs_four_slashes (topic : string) :
  (extract_device_id topic = raise IndexError
   <-> count_char "/" topic < 4)
  /\ (forall device_id,
         extract_device_id topic = ret device_id ->
         4 <= count_char "/" topic
         /\ contains "/" device_id = false
         /\ nth_error (str_split "/" topic) 4 = Some device_id).
Proof.
  unfold extract_device_id, list_getitem.
  pose proof (str_split_length "/" topic) as Hlen.
  destruct (nth_error (str_split "/" topic) 4) as [seg|] eqn:Hnth.
  - assert (Hlt : 4 < List.length (str_split "/" topic)).
    { apply nth_error_Some. rewrite Hnth. discriminate. }
    split.
    + split; [discriminate | intro H; lia].
    + intros device_id H. injection H as <-.
      split; [lia|]. split; [|reflexivity].
      destruct (str_join_split "/" topic) as [_ [Hall _]].
      rewrite Forall_forall in Hall. apply Hall.
      apply (nth_error_In _ _ Hnth).
  - apply nth_error_None in Hnth.
    split.
    + split; [intros _; lia | reflexivity].
    + intros device_id H. discriminate H.
Qed.

(** X8. A message whose topic has fewer than four ['/'] is never written,
    whatever its payload: [on_message] raises, [UnicodeDecodeError] when
    the bytes cannot be decoded and [IndexError] otherwise, and the sink
    is left as it was. *)
Theorem on_message_short_topic
  (json_loads : string -> option pyval)
  (decode_utf8 : list Byte.byte -> option string)
  (str_list : list pyval -> string) (store_ok : pydict -> bool)
  (message : mqtt_message) (db : sink) :
  count_char "/" (topic message) < 4 ->
  on_message json_loads decode_utf8 str_list store_ok message db =
  (raise (match decode_utf8 (payload message) with
          | None => UnicodeDecodeError
          | Some _ => IndexError
          end), db).
Proof.
  intro Hshort. unfold on_message.
  destruct (decode_utf8 (payload message)) as [text|]; [|reflexivity].
  rewrite (extract_device_id_short _ Hshort). reflexivity.
Qed.

Lemma on_message_short_topic_witness :
  on_message
    (loads_as (PyDict [("t", PyInt 2)])) (decode_as "text") (render_as "")
    store_up
    {| payload := []; topic := "devices/pilotdevice01/up" |} []
  = (raise IndexError, []).
Proof.
  apply (on_message_short_topic
           (loads_as (PyDict [("t", PyInt 2)])) (decode_as "text")
           (render_as "") store_up
           {| payload := []; topic := "devices/pilotdevice01/up" |} []).
  simpl. lia.
Defined.

(** ** The reconnection loop *)

Lemma connect_mqtt_from (broker : nat -> attempt) (n : nat) :
  forall (i fuel : nat),
    (forall j, i <= j < i + n -> broker j <> NoneRaises) ->
    broker (i + n) = NoneRaises ->
    (n < fuel ->
     exists retries,
       connect_mqtt fuel broker i =
         Some (retries
                 ++ [MqttConnect; MqttSubscribe; MqttLoopStart; PrintConnected])
       /\ total_sleep retries = (5 * Z.of_nat n)%Z
       /\ connect_calls retries = n
       /\ ~ In PrintConnected retries)
    /\ (fuel <= n -> connect_mqtt fuel broker i = None).
Proof.
  induction n as [|n IH]; intros i fuel Hfail Hok.
  - rewrite Nat.add_0_r in Hok. split.
    + intro Hfuel. destruct fuel as [|fuel']; [lia|].
      exists []. simpl. rewrite Hok. simpl.
      repeat split; try reflexivity. intros [].
    + intro Hfuel. destruct fuel; [reflexivity | lia].
  - assert (Hi : broker i <> NoneRaises) by (apply Hfail; lia).
    assert (Hfail' : forall j, S i <= j < S i + n -> broker j <> NoneRaises)
      by (intros j Hj; apply Hfail; lia).
    assert (Hok' : broker (S i + n) = NoneRaises)
      by (rewrite <- Hok; f_equal; lia).
    split.
    + intro Hfuel. destruct fuel as [|fuel']; [lia|].
      destruct (IH (S i) fuel' Hfail' Hok') as [Hsome _].
      destruct (Hsome ltac:(lia)) as [retries [Hrun [Hsleep [Hcalls Hnot]]]].
      cbn [connect_mqtt]. rewrite Hrun.
      destruct (broker i) eqn:Hb; try contradiction; cbn [connect_once];
        eexists; (split; [rewrite app_assoc; reflexivity|]);
        (split; [cbn [app total_sleep]; rewrite Hsleep; lia|]);
        (split; [cbn [app connect_calls]; rewrite Hcalls; reflexivity|]);
        cbn [app In]; intros H;
        repeat (destruct H as [H|H]; [discriminate H|]); exact (Hnot H).
    + intro Hfuel. destruct fuel as [|fuel']; [reflexivity|].
      destruct (IH (S i) fuel' Hfail' Hok') as [_ Hnone].
      cbn [connect_mqtt]. rewrite (Hnone ltac:(lia)).
      destruct (broker i) eqn:Hb; try contradiction; reflexivity.
Qed.

(** X9. If the first pass of [connect_mqtt] in which no call raises is
    pass number [n], the loop returns after exactly [n] failed passes
    (and not before): it has then called [connect] [n + 1] times, slept
    [5 n] seconds in all, five after each failure with no growth, and it
    ends with one successful [connect], [subscribe], [loop_start] and the
    message that it is connected, printed once. *)
Theorem connect_mqtt_retries (broker : nat -> attempt) (n fuel : nat) :
  (forall j, j < n -> broker j <> NoneRaises) ->
  broker n = NoneRaises ->
  (n < fuel ->
   exists retries,
     connect_mqtt fuel broker 0 =
       Some (retries
               ++ [MqttConnect; MqttSubscribe; MqttLoopStart; PrintConnected])
     /\ total_sleep retries = (5 * Z.of_nat n)%Z
     /\ connect_calls retries = n
     /\ ~ In PrintConnected retries)
  /\ (fuel <= n -> connect_mqtt fuel broker 0 = None).
Proof.
  intros Hfail Hok.
  apply (connect_mqtt_from broker n 0 fuel).
  - intros j Hj. apply Hfail. lia.
  - exact Hok.
Qed.

Lemma connect_mqtt_retries_witness :
  connect_mqtt 2
    (fun i => match i with 0 => SubscribeRaises | 1 => ConnectRaises
                      | _ => NoneRaises end) 0 = None.
Proof.
  apply (connect_mqtt_retries
           (fun i => match i with 0 => SubscribeRaises | 1 => ConnectRaises
                             | _ => NoneRaises end) 2 2).
  - intros j Hj. destruct j as [|[|j']]; [discriminate | discriminate | lia].
  - reflexivity.
  - lia.
Defined.

(** X10. Against a broker where every pass fails, [connect_mqtt] never
    returns, whatever the number of passes allowed: there is no maximum
    number of retries. *)
Theorem connect_mqtt_never_gives_up (broker : nat -> attempt) (fuel : nat) :
  (forall j, broker j <> NoneRaises) ->
  connect_mqtt fuel broker 0 = None.
Proof.
  intro Hfail. generalize 0 as i.
  induction fuel as [|fuel' IH]; intro i; cbn [connect_mqtt].
  - reflexivity.
  - rewrite IH. pose proof (Hfail i) as Hi.
    destruct (broker i); try contradiction; reflexivity.
Qed.

Lemma connect_mqtt_never_gives_up_witness :
  connect_mqtt 1000 (fun _ => ConnectRaises) 0 = None.
Proof.
  apply (connect_mqtt_never_gives_up (fun _ => ConnectRaises) 1000).
  intros j. discriminate.
Defined.

(** ** The device labels *)

Lemma map_get_absent (m : list (string * string)) (k default : string) :
  ~ In k (map fst m) -> map_get m k default = default.
Proof.
  induction m as [|[k' v] rest IH]; simpl; intro Hk.
  - reflexivity.
  - destruct (String.eqb k' k) eqn:E.
    + apply String.eqb_eq in E. exfalso. apply Hk. left. exact E.
    + apply IH. intro H. apply Hk. right. exact H.
Qed.

Lemma map_get_present (m : list (string * string)) (k v default : string) :
  NoDup (map fst m) -> In (k, v) m -> map_get m k default = v.
Proof.
  induction m as [|[k' v'] rest IH]; simpl; intros Hnd Hin.
  - contradiction.
  - inversion Hnd as [|? ? Hfresh Hrest]; subst.
    destruct Hin as [Heq|Hin].
    + injection Heq as -> ->. rewrite String.eqb_refl. reflexivity.
    + destruct (String.eqb k' k) eqn:E.
      * apply String.eqb_eq in E. subst k'. exfalso. apply Hfresh.
        apply (in_map fst) in Hin. exact Hin.
      * apply IH; assumption.
Qed.

Lemma device_name_map_NoDup : NoDup (map fst device_name_map).
Proof.
  simpl. repeat constructor; simpl; intro H;
    repeat (destruct H as [H|H]; [discriminate H|]); exact H.
Qed.

(** X11. The label used in alerts and warnings is the entry of
    [device_name_map] for an identifier that has one (the table has no
    identifier twice), and the identifier itself for every other
    identifier. *)
Theorem device_label (device_id : string) :
  (forall label,
      In (device_id, label) device_name_map ->
      map_get device_name_map device_id device_id = label)
  /\ (~ In device_id (map fst device_name_map) ->
      map_get device_name_map device_id device_id = device_id).
Proof.
  split.
  - intros label Hin.
    apply (map_get_present _ _ _ _ device_name_map_NoDup Hin).
  - apply map_get_absent.
Qed.

(** ** A whole scan *)

Lemma forallb_first_failure {A : Type} (p : A -> bool) (l : list A) :
  forallb p l = false ->
  exists before x rest,
    l = before ++ x :: rest /\ forallb p before = true /\ p x = false.
Proof.
  induction l as [|a l' IH]; simpl; intro H.
  - discriminate H.
  - destruct (p a) eqn:Ha.
    + destruct (IH H) as [before [x [rest [Hl [Hb Hx]]]]].
      exists (a :: before), x, rest. subst l'. simpl. rewrite Ha.
      repeat split; assumption.
    + exists [], a, l'. repeat split. exact Ha.
Qed.

Section ScanFacts.

Variable connect_ok : bool.
Variable query_distinct : option (list string).
Variable query_last : string -> option (list point).
Variable to_berlin_time : string -> option Z.
Variable str_timestamp : Z -> string.
Variable now : string -> Z.
Variable telegram_ok : string -> bool.

Local Abbreviation check :=
  (check_and_alert_for_device
     query_last to_berlin_time str_timestamp now telegram_ok).
Local Abbreviation scan :=
  (check_all query_last to_berlin_time str_timestamp now telegram_ok).
Local Abbreviation is_unreadable := (unreadable query_last to_berlin_time).
Local Abbreviation is_stale := (stale query_last to_berlin_time now).
Local Abbreviation alert_text :=
  (alert_for query_last to_berlin_time str_timestamp now).

Lemma check_readable (device_id : string) :
  is_unreadable device_id = false ->
  fst (check device_id) = ret tt
  /\ alerts (snd (check device_id)) =
     if is_stale device_id then [alert_text device_id] else [].
Proof.
  unfold check_and_alert_for_device, query_influxdb_for_device,
    unreadable, stale, alert_for, last_seen, first_row.
  destruct (query_last device_id) as [[|row rows]|]; intro Hr.
  - split; reflexivity.
  - destruct (to_berlin_time (time row)) as [last|]; [|discriminate Hr].
    destruct (now device_id - last >? timedelta_minutes 10)%Z.
    + split; [reflexivity|]. cbn [snd app divmod].
      rewrite alerts_app, alerts_send_telegram_alert. reflexivity.
    + split; reflexivity.
  - split; reflexivity.
Qed.

Lemma check_unreadable (device_id : string) :
  is_unreadable device_id = true ->
  check device_id = (raise TypeError, []).
Proof.
  unfold check_and_alert_for_device, query_influxdb_for_device,
    unreadable, first_row.
  destruct (query_last device_id) as [[|row rows]|]; intro Hr;
    try discriminate Hr.
  destruct (to_berlin_time (time row)); [discriminate Hr | reflexivity].
Qed.

Lemma scan_readable (ids : list string) :
  forallb (fun d => negb (is_unreadable d)) ids = true ->
  fst (scan ids) = ret tt
  /\ alerts (snd (scan ids)) = map alert_text (filter is_stale ids).
Proof.
  induction ids as [|d rest IH]; simpl; intro Hall.
  - split; reflexivity.
  - apply andb_prop in Hall. destruct Hall as [Hd Hrest].
    apply negb_true_iff in Hd.
    destruct (check_readable d Hd) as [Hfst Halerts].
    destruct (IH Hrest) as [IHfst IHalerts].
    destruct (check d) as [[e|u] fx]; [discriminate Hfst|].
    destruct (scan rest) as [r fx']. cbn [fst snd] in *.
    split; [exact IHfst|].
    rewrite alerts_app, Halerts, IHalerts.
    destruct (is_stale d); reflexivity.
Qed.

Lemma scan_aborted (before rest : list string) (device_id : string) :
  forallb (fun d => negb (is_unreadable d)) before = true ->
  is_unreadable device_id = true ->
  fst (scan (before ++ device_id :: rest)) = raise TypeError
  /\ alerts (snd (scan (before ++ device_id :: rest))) =
     map alert_text (filter is_stale before).
Proof.
  intros Hbefore Hd.
  destruct (scan_readable before Hbefore) as [Hfst Halerts].
  rewrite check_all_app.
  destruct (scan before) as [[e|u] fx]; [discriminate Hfst|].
  cbn [check_all]. rewrite (check_unreadable device_id Hd).
  cbn [fst snd] in *. rewrite app_nil_r. split; [reflexivity | exact Halerts].
Qed.

Lemma alerts_fetch_failed_effects :
  alerts (fetch_failed_effects telegram_ok) = [fetch_failed_message].
Proof.
  unfold fetch_failed_effects. cbn [alerts].
  apply alerts_send_telegram_alert.
Qed.

Lemma alerts_fetch (ids : list string) :
  connect_ok = true ->
  query_distinct = Some ids ->
  alerts
    (fetch_last_logged_time connect_ok query_distinct query_last
       to_berlin_time str_timestamp now telegram_ok) =
  alerts (snd (scan ids))
    ++ match fst (scan ids) with
       | inl _ => [fetch_failed_message]
       | inr _ => []
       end.
Proof.
  intros Hc Hq. unfold fetch_last_logged_time, query_unique_device_ids.
  rewrite Hc, Hq. destruct ids as [|d rest]; [reflexivity|].
  destruct (scan (d :: rest)) as [[e|u] fx]; cbn [fst snd app].
  - rewrite alerts_app, alerts_fetch_failed_effects. reflexivity.
  - rewrite app_nil_r. reflexivity.
Qed.

Lemma alerts_fetch_readable (ids : list string) :
  connect_ok = true ->
  query_distinct = Some ids ->
  forallb (fun d => negb (is_unreadable d)) ids = true ->
  alerts
    (fetch_last_logged_time connect_ok query_distinct query_last
       to_berlin_time str_timestamp now telegram_ok) =
  map alert_text (filter is_stale ids).
Proof.
  intros Hc Hq Hall. rewrite (alerts_fetch ids Hc Hq).
  destruct (scan_readable ids Hall) as [Hfst Halerts].
  rewrite Hfst, Halerts. apply app_nil_r.
Qed.

(** X12. When the connection is made, the identifier query returns
    [ids], and no device has a last record whose time cannot be read, one
    scan sends exactly one alert for each device whose last record is more
    than ten minutes old, in the order in which the devices are visited,
    and nothing else: no alert for a fresh device, for a device without
    data, or for the scan itself. *)
Theorem scan_alerts_exactly_the_stale (ids : list string) :
  connect_ok = true ->
  query_distinct = Some ids ->
  forallb (fun d => negb (is_unreadable d)) ids = true ->
  alerts
    (fetch_last_logged_time connect_ok query_distinct query_last
       to_berlin_time str_timestamp now telegram_ok) =
  map alert_text (filter is_stale ids).
Proof.
  intros Hc Hq Hall. rewrite (alerts_fetch ids Hc Hq).
  destruct (scan_readable ids Hall) as [Hfst Halerts].
  rewrite Hfst, Halerts. apply app_nil_r.
Qed.

(** X13. A last record whose time cannot be read ends the scan: the
    devices visited before it are handled as usual, the devices after it
    are not looked at (what the scan sends does not depend on them), and
    one general failure alert is sent in the end. *)
Theorem unreadable_time_aborts_scan (before rest : list string)
  (device_id : string) :
  connect_ok = true ->
  query_distinct = Some (before ++ device_id :: rest) ->
  forallb (fun d => negb (is_unreadable d)) before = true ->
  is_unreadable device_id = true ->
  alerts
    (fetch_last_logged_time connect_ok query_distinct query_last
       to_berlin_time str_timestamp now telegram_ok) =
  map alert_text (filter is_stale before) ++ [fetch_failed_message].
Proof.
  intros Hc Hq Hbefore Hd. rewrite (alerts_fetch _ Hc Hq).
  destruct (scan_aborted before rest device_id Hbefore Hd) as [Hfst Halerts].
  rewrite Hfst, Halerts. reflexivity.
Qed.

(** X14. Whatever the store answers, the devices a scan over [ids]
    visits are an initial segment of [ids], and the alerts it sends are
    one alert for each visited device whose last record is more than ten
    minutes old, in order, followed by the general failure alert exactly
    when the scan stopped, at a device whose time cannot be read, before
    the end of [ids].  So no alert is sent for a device that is fresh or
    not visited, a device that occurs once in [ids] gets at most one
    alert, and a scan sends at most one alert more than there are
    devices. *)
Theorem scan_alerts_bounded (ids : list string) :
  connect_ok = true ->
  query_distinct = Some ids ->
  exists visited rest,
    ids = visited ++ rest
    /\ forallb (fun d => negb (is_unreadable d)) visited = true
    /\ (rest = [] \/ exists d rest', rest = d :: rest'
                                     /\ is_unreadable d = true)
    /\ alerts
         (fetch_last_logged_time connect_ok query_distinct query_last
            to_berlin_time str_timestamp now telegram_ok) =
       map alert_text (filter is_stale visited)
         ++ match rest with
            | [] => []
            | _ :: _ => [fetch_failed_message]
            end
    /\ (NoDup ids -> NoDup (filter is_stale visited))
    /\ List.length
         (alerts
            (fetch_last_logged_time connect_ok query_distinct query_last
               to_berlin_time str_timestamp now telegram_ok))
       <= S (List.length ids).
Proof.
  intros Hc Hq.
  assert (Hlen : forall l,
             List.length (map alert_text (filter is_stale l))
               <= List.length l).
  { intro l. rewrite length_map. apply filter_length_le. }
  destruct (forallb (fun d => negb (is_unreadable d)) ids) eqn:Hall.
  - exists ids, []. rewrite app_nil_r.
    rewrite (alerts_fetch_readable ids Hc Hq Hall), app_nil_r.
    split; [reflexivity|]. split; [exact Hall|].
    split; [left; reflexivity|]. split; [reflexivity|].
    split; [apply NoDup_filter|]. specialize (Hlen ids). lia.
  - destruct (forallb_first_failure _ _ Hall)
      as [before [d [rest [Hids [Hbefore Hd]]]]].
    apply negb_false_iff in Hd.
    exists before, (d :: rest).
    rewrite (alerts_fetch _ Hc Hq). rewrite Hids.
    destruct (scan_aborted before rest d Hbefore Hd) as [Hfst Halerts].
    rewrite Hfst, Halerts.
    split; [reflexivity|]. split; [exact Hbefore|].
    split; [right; exists d, rest; split; [reflexivity | exact Hd]|].
    split; [reflexivity|]. split.
    + intro Hnd. apply NoDup_filter. apply NoDup_app_remove_r in Hnd.
      exact Hnd.
    + rewrite !length_app. specialize (Hlen before). simpl. lia.
Qed.

(** X15. A failed or empty identifier query is silent: the scan sends no
    alert at all and logs that no identifier was found.  Only a failed
    connection makes a scan without devices send the general failure
    alert. *)
Theorem scan_without_identifiers :
  (query_distinct = None \/ query_distinct = Some []) ->
  alerts
    (fetch_last_logged_time connect_ok query_distinct query_last
       to_berlin_time str_timestamp now telegram_ok) =
    (if connect_ok then [] else [fetch_failed_message])
  /\ (connect_ok = true ->
      In (LogError No_unique_ids)
         (fetch_last_logged_time connect_ok query_distinct query_last
            to_berlin_time str_timestamp now telegram_ok)).
Proof.
  intro Hq. unfold fetch_last_logged_time, query_unique_device_ids.
  destruct connect_ok.
  - destruct Hq as [Hq|Hq]; rewrite Hq; split; try reflexivity;
      intros _; simpl; auto.
  - split; [apply alerts_fetch_failed_effects | discriminate].
Qed.

End ScanFacts.

Lemma scan_alerts_exactly_the_stale_witness :
  alerts
    (fetch_last_logged_time true
       (Some ["pilotdevice03"; "pilotdevice01"; "pilotdevice04"])
       example_store example_reader (fun _ => "1970-01-01 01:00:00+01:00")
       (fun _ => timedelta_minutes 75) (fun _ => false))
  = [alert_message_of "ED1" "1970-01-01 01:00:00+01:00" 1 15].
Proof.
  apply (scan_alerts_exactly_the_stale true
           (Some ["pilotdevice03"; "pilotdevice01"; "pilotdevice04"])
           example_store example_reader (fun _ => "1970-01-01 01:00:00+01:00")
           (fun _ => timedelta_minutes 75) (fun _ => false)
           ["pilotdevice03"; "pilotdevice01"; "pilotdevice04"]);
    reflexivity.
Defined.

Lemma unreadable_time_aborts_scan_witness :
  alerts
    (fetch_last_logged_time true
       (Some ["pilotdevice01"; "pilotdevice02"; "pilotdevice03"])
       example_store example_reader (fun _ => "1970-01-01 01:00:00+01:00")
       (fun _ => timedelta_minutes 75) (fun _ => true))
  = [alert_message_of "ED1" "1970-01-01 01:00:00+01:00" 1 15;
     fetch_failed_message].
Proof.
  apply (unreadable_time_aborts_scan true
           (Some ["pilotdevice01"; "pilotdevice02"; "pilotdevice03"])
           example_store example_reader (fun _ => "1970-01-01 01:00:00+01:00")
           (fun _ => timedelta_minutes 75) (fun _ => true)
           ["pilotdevice01"] ["pilotdevice03"] "pilotdevice02");
    reflexivity.
Defined.

Lemma scan_alerts_bounded_witness :
  exists visited rest,
    ["pilotdevice01"; "pilotdevice02"; "pilotdevice03"] = visited ++ rest
    /\ alerts
         (fetch_last_logged_time true
            (Some ["pilotdevice01"; "pilotdevice02"; "pilotdevice03"])
            example_store example_reader (fun _ => "")
            (fun _ => timedelta_minutes 75) (fun _ => true)) =
       map (alert_for example_store example_reader (fun _ => "")
              (fun _ => timedelta_minutes 75))
           (filter (stale example_store example_reader
                      (fun _ => timedelta_minutes 75)) visited)
         ++ match rest with
            | [] => []
            | _ :: _ => [fetch_failed_message]
            end.
Proof.
  destruct (scan_alerts_bounded true
              (Some ["pilotdevice01"; "pilotdevice02"; "pilotdevice03"])
              example_store example_reader (fun _ => "")
              (fun _ => timedelta_minutes 75) (fun _ => true)
              ["pilotdevice01"; "pilotdevice02"; "pilotdevice03"]
              eq_refl eq_refl)
    as [visited [rest [Hids [_ [_ [Halerts _]]]]]].
  exists visited, rest. split; [exact Hids | exact Halerts].
Defined.

Lemma scan_without_identifiers_witness :
  alerts
    (fetch_last_logged_time true None example_store example_reader
       (fun _ => "") (fun _ => 0%Z) (fun _ => true))
  = [].
Proof.
  apply (scan_without_identifiers true None example_store example_reader
           (fun _ => "") (fun _ => 0%Z) (fun _ => true)).
  left. reflexivity.
Defined.

(** ** Delivery failures *)

Lemma send_telegram_alert_delivery (telegram_ok telegram_ok' : string -> bool)
  (message : string) :
  alerts (send_telegram_alert telegram_ok message) =
    alerts (send_telegram_alert telegram_ok' message)
  /\ List.length (send_telegram_alert telegram_ok message) =
     List.length (send_telegram_alert telegram_ok' message).
Proof.
  unfold send_telegram_alert.
  destruct (telegram_ok message), (telegram_ok' message); split; reflexivity.
Qed.

Lemma check_delivery (query_last : string -> option (list point))
  (to_berlin_time : string -> option Z) (str_timestamp : Z -> string)
  (now : string -> Z) (telegram_ok telegram_ok' : string -> bool)
  (device_id : string) :
  fst (check_and_alert_for_device query_last to_berlin_time str_timestamp
         now telegram_ok device_id) =
    fst (check_and_alert_for_device query_last to_berlin_time str_timestamp
           now telegram_ok' device_id)
  /\ alerts (snd (check_and_alert_for_device query_last to_berlin_time
                    str_timestamp now telegram_ok device_id)) =
     alerts (snd (check_and_alert_for_device query_last to_berlin_time
                    str_timestamp now telegram_ok' device_id))
  /\ List.length (snd (check_and_alert_for_device query_last to_berlin_time
                         str_timestamp now telegram_ok device_id)) =
     List.length (snd (check_and_alert_for_device query_last to_berlin_time
                         str_timestamp now telegram_ok' device_id)).
Proof.
  unfold check_and_alert_for_device.
  destruct (query_influxdb_for_device query_last device_id) as [[|row rows] fx].
  - repeat split.
  - destruct (to_berlin_time (time row)) as [last|]; [|repeat split].
    destruct (now device_id - last >? timedelta_minutes 10)%Z;
      [|repeat split].
    cbn [divmod fst snd].
    match goal with
    | |- context [send_telegram_alert telegram_ok ?m] =>
        destruct (send_telegram_alert_delivery telegram_ok telegram_ok' m)
          as [Ha Hl]
    end.
    split; [reflexivity|]. split.
    + rewrite !alerts_app, Ha. reflexivity.
    + rewrite !length_app, Hl. reflexivity.
Qed.

Lemma check_all_delivery (query_last : string -> option (list point))
  (to_berlin_time : string -> option Z) (str_timestamp : Z -> string)
  (now : string -> Z) (telegram_ok telegram_ok' : string -> bool)
  (ids : list string) :
  fst (check_all query_last to_berlin_time str_timestamp now telegram_ok ids)
    = fst (check_all query_last to_berlin_time str_timestamp now
             telegram_ok' ids)
  /\ alerts (snd (check_all query_last to_berlin_time str_timestamp now
                    telegram_ok ids)) =
     alerts (snd (check_all query_last to_berlin_time str_timestamp now
                    telegram_ok' ids))
  /\ List.length (snd (check_all query_last to_berlin_time str_timestamp now
                         telegram_ok ids)) =
     List.length (snd (check_all query_last to_berlin_time str_timestamp now
                         telegram_ok' ids)).
Proof.
  induction ids as [|d rest [IHf [IHa IHl]]]; cbn [check_all].
  - repeat split.
  - destruct (check_delivery query_last to_berlin_time str_timestamp now
                telegram_ok telegram_ok' d) as [Hf [Ha Hl]].
    destruct (check_and_alert_for_device _ _ _ _ telegram_ok d)
      as [[e|u] fx];
      destruct (check_and_alert_for_device _ _ _ _ telegram_ok' d)
        as [[e'|u'] fx']; cbn [fst snd] in *; try discriminate Hf.
    + split; [exact Hf|]. split; assumption.
    + destruct (check_all _ _ _ _ telegram_ok rest) as [r gx];
        destruct (check_all _ _ _ _ telegram_ok' rest) as [r' gx'];
        cbn [fst snd] in *.
      split; [exact IHf|]. split.
      * rewrite !alerts_app, Ha, IHa. reflexivity.
      * rewrite !length_app, Hl, IHl. reflexivity.
Qed.

(** X16. Whether Telegram accepts a message or not changes nothing in
    what a scan does next: with any two behaviours of the endpoint, the
    scan attempts the same alerts in the same order and produces the same
    number of effects; a failed delivery is only logged, never retried
    and never raised. *)
Theorem delivery_failure_is_only_logged
  (connect_ok : bool) (query_distinct : option (list string))
  (query_last : string -> option (list point))
  (to_berlin_time : string -> option Z) (str_timestamp : Z -> string)
  (now : string -> Z) (telegram_ok telegram_ok' : string -> bool) :
  alerts (fetch_last_logged_time connect_ok query_distinct query_last
            to_berlin_time str_timestamp now telegram_ok) =
    alerts (fetch_last_logged_time connect_ok query_distinct query_last
              to_berlin_time str_timestamp now telegram_ok')
  /\ List.length (fetch_last_logged_time connect_ok query_distinct query_last
                    to_berlin_time str_timestamp now telegram_ok) =
     List.length (fetch_last_logged_time connect_ok query_distinct query_last
                    to_berlin_time str_timestamp now telegram_ok').
Proof.
  assert (Hfail :
            alerts (fetch_failed_effects telegram_ok) =
              alerts (fetch_failed_effects telegram_ok')
            /\ List.length (fetch_failed_effects telegram_ok) =
               List.length (fetch_failed_effects telegram_ok')).
  { unfold fetch_failed_effects.
    destruct (send_telegram_alert_delivery telegram_ok telegram_ok'
                "ALERT: Error occurred while fetching data from InfluxDB.")
      as [Ha Hl].
    cbn [alerts List.length]. rewrite Ha, Hl. split; reflexivity. }
  destruct Hfail as [Hfa Hfl].
  unfold fetch_last_logged_time.
  destruct connect_ok; [|split; assumption].
  destruct (query_unique_device_ids query_distinct) as [[|d rest] fx];
    [split; reflexivity|].
  destruct (check_all_delivery query_last to_berlin_time str_timestamp now
              telegram_ok telegram_ok' (d :: rest)) as [Hf [Ha Hl]].
  destruct (check_all _ _ _ _ telegram_ok (d :: rest)) as [[e|u] gx];
    destruct (check_all _ _ _ _ telegram_ok' (d :: rest)) as [[e'|u'] gx'];
    cbn [fst snd] in *; try discriminate Hf.
  - split.
    + rewrite !alerts_app, Ha, Hfa. reflexivity.
    + rewrite !length_app, Hl, Hfl. reflexivity.
  - split.
    + rewrite !alerts_app, Ha. reflexivity.
    + rewrite !length_app, Hl. reflexivity.
Qed.

(** ** Colliding names *)

Lemma find_app_last {A : Type} (p : A -> bool) (l : list A) (a : A) :
  find p (l ++ [a]) =
  match find p l with
  | Some y => Some y
  | None => if p a then Some a else None
  end.
Proof.
  induction l as [|b l' IH]; simpl.
  - reflexivity.
  - destruct (p b); [reflexivity | exact IH].
Qed.

Lemma dict_getitem_setitem (d : pydict) (k name : string) (v : pyval) :
  dict_getitem (dict_setitem d k v) name =
  if String.eqb k name then ret v else dict_getitem d name.
Proof.
  destruct (String.eqb k name) eqn:E.
  - apply String.eqb_eq in E. subst name. apply dict_getitem_setitem_same.
  - apply String.eqb_neq in E. apply dict_getitem_setitem_other.
    intro H. apply E. symmetry. exact H.
Qed.

Lemma fold_flat_getitem (sep name : string) (x : pydict) :
  forallb (fun kv => is_scalar (snd kv)) x = true ->
  forall acc,
    dict_getitem
      (fold_left (fun items kv => flatten_step "" sep (fst kv) (snd kv) items)
                 x acc) name =
    match find (fun kv => String.eqb (sanitize (fst kv)) name) (rev x) with
    | Some kv => ret (snd kv)
    | None => dict_getitem acc name
    end.
Proof.
  induction x as [|[k v] rest IH]; intros Hall acc.
  - reflexivity.
  - simpl in Hall. apply andb_prop in Hall. destruct Hall as [Hv Hrest].
    cbn [fold_left fst snd rev]. rewrite (IH Hrest), find_app_last.
    destruct (find _ (rev rest)) as [kv|]; [reflexivity|].
    rewrite flatten_step_scalar by exact Hv.
    change (new_key_of "" sep k) with (sanitize k).
    rewrite dict_getitem_setitem. cbn [fst snd].
    destruct (String.eqb (sanitize k) name); reflexivity.
Qed.

(** X17. In a mapping whose values are all leaves, keys that sanitize to
    the same name collide, and the last one wins: looking a name up in
    the flattened record gives the value of the last entry of the input
    whose sanitized key is that name, and raises [KeyError] when there is
    no such entry. *)
Theorem flat_collision_last_wins (x : pydict) (sep name : string) :
  forallb (fun kv => is_scalar (snd kv)) x = true ->
  dict_getitem (flatten_json x "" sep) name =
  match find (fun kv => String.eqb (sanitize (fst kv)) name) (rev x) with
  | Some kv => ret (snd kv)
  | None => raise KeyError
  end.
Proof.
  intro Hall. unfold flatten_json.
  rewrite (fold_flat_getitem sep name x Hall []).
  destruct (find _ (rev x)); reflexivity.
Qed.

Lemma flat_collision_last_wins_witness :
  dict_getitem
    (flatten_json [("a-b", PyInt 1); ("c", PyInt 3); ("a.b", PyInt 2)] "" "_")
    "a_b"
  = ret (PyInt 2).
Proof.
  apply (flat_collision_last_wins
           [("a-b", PyInt 1); ("c", PyInt 3); ("a.b", PyInt 2)] "_" "a_b").
  reflexivity.
Defined.

(** ** The sink only grows *)

(** X18. Whatever the message and whatever the store does,
    [on_message] leaves every point already in the sink in place and
    appends at most one; when it appends one it returns normally, and the
    point has the field [device_id]. *)
Theorem on_message_appends_at_most_one
  (json_loads : string -> option pyval)
  (decode_utf8 : list Byte.byte -> option string)
  (str_list : list pyval -> string) (store_ok : pydict -> bool)
  (message : mqtt_message) (db : sink) :
  exists added,
    snd (on_message json_loads decode_utf8 str_list store_ok message db)
      = db ++ added
    /\ List.length added <= 1
    /\ Forall (fun written => In "device_id" (dict_keys written)) added
    /\ (added = []
        \/ fst (on_message json_loads decode_utf8 str_list store_ok message db)
           = ret tt).
Proof.
  destruct (on_message_sink json_loads decode_utf8 str_list store_ok
              message db)
    as [Hsame | [text [device_id [data [Hdec [Hid [Hex [Hne [Hok Hw]]]]]]]]].
  - exists []. rewrite app_nil_r. split; [exact Hsame|].
    split; [simpl; lia|]. split; [constructor | left; reflexivity].
  - exists [dict_setitem data "device_id" (PyStr device_id)].
    split; [rewrite Hw; reflexivity|]. split; [simpl; lia|]. split.
    + constructor; [|constructor].
      destruct (in_dec string_dec "device_id" (dict_keys data)) as [Hin|Hout].
      * rewrite dict_setitem_keys_present by exact Hin. exact Hin.
      * rewrite dict_setitem_fresh by exact Hout.
        unfold dict_keys. rewrite map_app. apply in_or_app.
        right. left. reflexivity.
    + right. rewrite Hw. reflexivity.
Qed.
